(** * MinDIF import: the classification image of [mindif_import.py]

    A shallow embedding of the computational core of the import script:
    the phase catalogue, the scan geometry, the legend layout, the
    field-offset transform, the compositing loop with its histograms and
    bounding box, the legend order and the percentage text.

    The script is Python 2: [/] on two integers is floor division,
    [round] rounds half away from zero and returns a float, [dict]
    iterates in hash-slot order.  Floats are IEEE binary64 and are
    modelled bit-exactly with the standard library's [SpecFloat]. *)

From Stdlib Require Import ZArith QArith Qround Qabs Lqa List Bool String Ascii Lia.
From Stdlib Require Import SpecFloat Permutation Sorted.
Import ListNotations.
Open Scope Z_scope.

(* ================================================================== *)
(** * Part I.  Definitions                                             *)
(* ================================================================== *)

(** ** Exceptions and the error monad

    Every Python exception aborts the script, so a computation either
    yields a value or the exception that ended the run. *)

Inductive py_error : Type :=
| ZeroDivisionError
| ValueError
| OverflowError
| KeyError (k : Z)
| IndexError.

Inductive result (A : Type) : Type :=
| Ok (a : A)
| Err (e : py_error).

Arguments Ok {A} a.
Arguments Err {A} e.

Definition bind {A B : Type} (c : result A) (k : A -> result B) : result B :=
  match c with
  | Ok a => k a
  | Err e => Err e
  end.

Notation "x <- c ;; k" := (bind c (fun x => k))
  (at level 61, c at next level, right associativity).

Definition is_ok {A : Type} (c : result A) : bool :=
  match c with Ok _ => true | Err _ => false end.

(** ** Python floats (binary64) *)

Module PyFloat.

Definition prec : Z := 53.
Definition emax : Z := 1024.

Definition t : Type := spec_float.

(** [float(n)] for an integer [n], and the implicit conversion of an
    integer operand next to a float one: round to nearest even. *)
Definition of_int (z : Z) : t := binary_normalize prec emax z 0 false.

Definition neg : t -> t := SFopp.
Definition add : t -> t -> t := SFadd prec emax.
Definition sub : t -> t -> t := SFsub prec emax.
Definition mul : t -> t -> t := SFmul prec emax.
Definition ltb : t -> t -> bool := SFltb.
Definition leb : t -> t -> bool := SFleb.

Definition is_zero (f : t) : bool :=
  match f with S754_zero _ => true | _ => false end.

(** [a / b] on floats raises when the divisor is zero. *)
Definition truediv (a b : t) : result t :=
  if is_zero b then Err ZeroDivisionError else Ok (SFdiv prec emax a b).

(** The real number a finite float stands for. *)
Definition value (f : t) : option Q :=
  match f with
  | S754_zero _ => Some 0%Q
  | S754_finite s m e =>
      let mag :=
        match e with
        | Z0 => inject_Z (Zpos m)
        | Zpos p => inject_Z (Zpos m * 2 ^ Zpos p)
        | Zneg p => Qmake (Zpos m) (2 ^ p)%positive
        end in
      Some (if s then Qopp mag else mag)
  | S754_infinity _ | S754_nan => None
  end.

(** Round to the nearest integer, halves away from zero. *)
Definition round_half_away (q : Q) : Z :=
  if Qle_bool 0 q then Qfloor (q + (1 # 2)) else - Qfloor (- q + (1 # 2)).


(** Truncation toward zero. *)
Definition trunc (q : Q) : Z := Z.quot (Qnum q) (Zpos (Qden q)).

(** [round(f)]: Python 2 returns a float with an integral value, and
    returns nan and the infinities unchanged.  The integral value is
    given as an integer; [None] stands for nan and the infinities. *)
Definition round (f : t) : option Z := option_map round_half_away (value f).

(** [int(f)]. *)
Definition to_int (f : t) : result Z :=
  match f with
  | S754_nan => Err ValueError
  | S754_infinity _ => Err OverflowError
  | _ => match value f with
         | Some q => Ok (trunc q)
         | None => Err ValueError
         end
  end.

(** [math.ceil(f)] followed by [int]. *)
Definition ceil_int (f : t) : result Z :=
  match f with
  | S754_nan => Err ValueError
  | S754_infinity _ => Err OverflowError
  | _ => match value f with
         | Some q => Ok (Qceiling q)
         | None => Err ValueError
         end
  end.

(** The literals [0.01] and [1.3] of the script. *)
Definition c_0_01 : t := S754_finite false 5764607523034235 (-59).
Definition c_1_3 : t := S754_finite false 5854679515581645 (-52).

End PyFloat.

(** ** Scan geometry (measurement.xml) *)

Record measurement : Type := {
  view_field_um : Z;
  image_width_px : Z;
  image_height_px : Z;
  sample_diameter_um : Z
}.

(** [diameter_px = int((sample_diameter_um / float(view_field_um)) * image_width_px)] *)
Definition diameter_px (m : measurement) : result Z :=
  r <- PyFloat.truediv (PyFloat.of_int (sample_diameter_um m))
                       (PyFloat.of_int (view_field_um m)) ;;
  PyFloat.to_int (PyFloat.mul r (PyFloat.of_int (image_width_px m))).

(** [pixel_spacing = float(view_field_um) / float(image_width_px)] *)
Definition pixel_spacing (m : measurement) : result PyFloat.t :=
  PyFloat.truediv (PyFloat.of_int (view_field_um m))
                  (PyFloat.of_int (image_width_px m)).

(** [origin = (field_size[0]/2, field_size[1]/2)] with
    [field_size = (diameter_px, diameter_px)]: integer halves. *)
Definition origin (diameter : Z) : Z * Z := (diameter / 2, diameter / 2).

(** ** Field offsets (fields.xml) *)

Record field_node : Type := {
  node_name : string;
  node_x : PyFloat.t;      (* float(field_node.get('x')) *)
  node_y : PyFloat.t       (* float(field_node.get('y')) *)
}.

(** An entry of [fields].  The coordinates are what [round] returned. *)
Record field : Type := {
  field_name : string;
  field_x : option Z;
  field_y : option Z
}.

(** The values the fields loop reads from the enclosing script. *)
Record geometry : Type := {
  g_measurement : measurement;
  g_diameter_px : Z;
  g_origin : Z * Z;
  g_pixel_spacing : PyFloat.t
}.

(** The body of the fields loop:
[[
    x = round(-float(field_node.get('x')) / pixel_spacing + origin[0] - (image_width_px / 2))
    y = round(float(field_node.get('y')) / pixel_spacing + origin[1] - (image_height_px / 2))
]] *)
Definition field_of_node (g : geometry) (n : field_node) : result field :=
  qx <- PyFloat.truediv (PyFloat.neg (node_x n)) (g_pixel_spacing g) ;;
  let x := PyFloat.round
             (PyFloat.sub (PyFloat.add qx (PyFloat.of_int (fst (g_origin g))))
                          (PyFloat.of_int (image_width_px (g_measurement g) / 2))) in
  qy <- PyFloat.truediv (node_y n) (g_pixel_spacing g) ;;
  let y := PyFloat.round
             (PyFloat.sub (PyFloat.add qy (PyFloat.of_int (snd (g_origin g))))
                          (PyFloat.of_int (image_height_px (g_measurement g) / 2))) in
  Ok {| field_name := node_name n; field_x := x; field_y := y |}.

(** [for field_node in field_nodes: ... fields.append(...)] *)
Fixpoint fields_loop (g : geometry) (nodes : list field_node) (fields : list field)
  : result (list field) :=
  match nodes with
  | [] => Ok fields
  | n :: rest =>
      f <- field_of_node g n ;;
      fields_loop g rest (fields ++ [f])
  end.

(** *** The transform as the specification words it *)

(** [round(d / pixel_spacing + o - half)] for one axis. *)
Definition axis_px (d ps : PyFloat.t) (o half : Z) : result (option Z) :=
  q <- PyFloat.truediv d ps ;;
  Ok (PyFloat.round (PyFloat.sub (PyFloat.add q (PyFloat.of_int o)) (PyFloat.of_int half))).

(** [physical_to_canvas(dx_um, dy_um)]: x negated, y not. *)
Definition physical_to_canvas (g : geometry) (dx_um dy_um : PyFloat.t)
  : result (option Z * option Z) :=
  x_px <- axis_px (PyFloat.neg dx_um) (g_pixel_spacing g)
                  (fst (g_origin g)) (image_width_px (g_measurement g) / 2) ;;
  y_px <- axis_px dy_um (g_pixel_spacing g)
                  (snd (g_origin g)) (image_height_px (g_measurement g) / 2) ;;
  Ok (x_px, y_px).



(** The sum [t + origin - half] of the transform, and whether both
    additions were exact. *)
Definition shifted (t : PyFloat.t) (o half : Z) : PyFloat.t :=
  PyFloat.sub (PyFloat.add t (PyFloat.of_int o)) (PyFloat.of_int half).

Definition shift_exact (t : PyFloat.t) (o half : Z) : bool :=
  match PyFloat.value t, PyFloat.value (shifted t o half) with
  | Some v, Some w => Qeq_bool w (v + inject_Z (o - half))
  | _, _ => false
  end.

(** ** Python 2 dictionaries keyed by integers

    A dictionary is kept as its entries in order of first insertion;
    assigning to a key that is present replaces the value in place.
    Iteration ([items], [iteritems], comprehensions, [deepcopy]) does not
    follow that order: CPython 2 walks the hash table slot by slot.  The
    slot of every key is recomputed here from the insertion history, as
    the interpreter does for small integer keys: [hash(k) = k], open
    addressing with the perturbed probe sequence, the table grown to the
    next power of two above four times the number of keys when it is two
    thirds full.  No key is ever deleted by the script. *)

Module PyDict.

(** *** The hash table, keys only *)

Definition word : Z := 2 ^ 64.

Definition hash (k : Z) : Z := if k =? -1 then -2 else k.

Definition slot_free (tbl : list (option Z)) (j : Z) : bool :=
  match nth_error tbl (Z.to_nat j) with
  | Some (Some _) => false
  | _ => true
  end.

(** [i = (i << 2) + i + perturb + 1; perturb >>= 5] until a free slot. *)
Fixpoint probe (fuel : nat) (tbl : list (option Z)) (mask i perturb : Z) : Z :=
  let j := Z.land i mask in
  if slot_free tbl j then j
  else match fuel with
       | O => j
       | S fuel' =>
           probe fuel' tbl mask ((Z.shiftl i 2 + i + perturb + 1) mod word)
                 (Z.shiftr perturb 5)
       end.

Fixpoint put_slot (tbl : list (option Z)) (j : nat) (k : Z) : list (option Z) :=
  match tbl, j with
  | [], _ => []
  | _ :: rest, O => Some k :: rest
  | s :: rest, S j' => s :: put_slot rest j' k
  end.

Definition place (tbl : list (option Z)) (k : Z) : list (option Z) :=
  let size := Z.of_nat (List.length tbl) in
  let h := hash k mod word in
  let j := probe (64 + 2 * List.length tbl) tbl (size - 1) (Z.land h (size - 1)) h in
  put_slot tbl (Z.to_nat j) k.

Definition slot_keys (tbl : list (option Z)) : list Z :=
  flat_map (fun s => match s with Some k => [k] | None => [] end) tbl.

(** The smallest power of two, from 8 on, above [minused]. *)
Fixpoint new_size (fuel : nat) (size minused : Z) : Z :=
  if minused <? size then size
  else match fuel with
       | O => size
       | S fuel' => new_size fuel' (2 * size) minused
       end.

Definition empty_table (size : Z) : list (option Z) :=
  repeat None (Z.to_nat size).

Definition resize (tbl : list (option Z)) (minused : Z) : list (option Z) :=
  fold_left place (slot_keys tbl)
            (empty_table (new_size (Z.to_nat (Z.log2_up (minused + 8))) 8 minused)).

(** Insertion of a key that is not in the table yet. *)
Definition insert_key (tbl : list (option Z)) (k : Z) : list (option Z) :=
  let tbl' := place tbl k in
  let used := Z.of_nat (List.length (slot_keys tbl')) in
  if Z.of_nat (List.length tbl') * 2 <=? used * 3
  then resize tbl' ((if 50000 <? used then 2 else 4) * used)
  else tbl'.

Definition table_of (keys : list Z) : list (option Z) :=
  fold_left insert_key keys (empty_table 8).

Fixpoint index_of (k : Z) (ks : list Z) : nat :=
  match ks with
  | [] => O
  | k' :: rest => if k =? k' then O else S (index_of k rest)
  end.

(** *** Stable sorting, used for iteration order and for [sorted] *)

Section Sort.
Context {A : Type}.
Variable before : A -> A -> bool.   (* strictly earlier in the order *)

Fixpoint insert_sorted (x : A) (l : list A) : list A :=
  match l with
  | [] => [x]
  | y :: rest =>
      if before y x then y :: insert_sorted x rest else x :: y :: rest
  end.

Fixpoint stable_sort (l : list A) : list A :=
  match l with
  | [] => []
  | x :: rest => insert_sorted x (stable_sort rest)
  end.
End Sort.

(** *** The dictionary *)

Section Dict.
Context {V : Type}.

Definition t : Type := list (Z * V).

Definition keys (d : t) : list Z := map fst d.

Fixpoint get (k : Z) (d : t) : option V :=
  match d with
  | [] => None
  | (k', v) :: rest => if k =? k' then Some v else get k rest
  end.

(** [d[k] = v] *)
Fixpoint set (k : Z) (v : V) (d : t) : t :=
  match d with
  | [] => [(k, v)]
  | (k', v') :: rest =>
      if k =? k' then (k, v) :: rest else (k', v') :: set k v rest
  end.

(** [d[k]] with the entry replaced by [f] of it; [KeyError] if absent. *)
Fixpoint update (k : Z) (f : V -> V) (d : t) : result t :=
  match d with
  | [] => Err (KeyError k)
  | (k', v) :: rest =>
      if k =? k' then Ok ((k', f v) :: rest)
      else rest' <- update k f rest ;; Ok ((k', v) :: rest')
  end.

Definition lookup (k : Z) (d : t) : result V :=
  match get k d with
  | Some v => Ok v
  | None => Err (KeyError k)
  end.

(** [d.items()]: the entries by increasing hash-table slot. *)
Definition items (d : t) : list (Z * V) :=
  let order := slot_keys (table_of (keys d)) in
  stable_sort
    (fun a b => (index_of (fst a) order <? index_of (fst b) order)%nat) d.

(** A dictionary filled from a list of pairs, in that order. *)
Definition of_list (l : list (Z * V)) : t :=
  fold_left (fun d kv => set (fst kv) (snd kv) d) l [].

(** [copy.deepcopy(d)]: a fresh dictionary filled while iterating [d]. *)
Definition deepcopy (d : t) : t := of_list (items d).

(** [{k: v for k, v in d.iteritems() if keep(v)}] *)
Definition filter_values (keep : V -> bool) (d : t) : t :=
  of_list (filter (fun kv => keep (snd kv)) (items d)).
End Dict.

Arguments t V : clear implicits.

End PyDict.

(** ** Phase catalogue (phases.xml) *)

Definition colour : Type := (Z * Z * Z)%type.

Definition white : colour := (255, 255, 255).
Definition black : colour := (0, 0, 0).

(** A phase node with its attributes decoded: [background == 'yes'],
    [int(id)], [name], the three bytes of [color], [float(mass)], and the
    [mineral_id] the mineral table holds (or creates) for the name. *)
Record phase_node : Type := {
  pn_background : bool;
  pn_id : Z;
  pn_name : string;
  pn_colour : colour;
  pn_colour_hex : string;
  pn_mass : PyFloat.t;
  pn_mineral_id : Z
}.

(** A value of [phase_map]. *)
Record phase_entry : Type := {
  mineral_name : string;
  mineral_id : Z;
  entry_colour : colour;
  colour_hex : string;
  mass : PyFloat.t;
  histogram : Z
}.

Definition entry_of_node (n : phase_node) : phase_entry :=
  {| mineral_name := pn_name n;
     mineral_id := pn_mineral_id n;
     entry_colour := pn_colour n;
     colour_hex := pn_colour_hex n;
     mass := pn_mass n;
     histogram := 0 |}.

Definition bump (e : phase_entry) : phase_entry :=
  {| mineral_name := mineral_name e;
     mineral_id := mineral_id e;
     entry_colour := entry_colour e;
     colour_hex := colour_hex e;
     mass := mass e;
     histogram := histogram e + 1 |}.

(** [for phase_node in phase_nodes: ...], carrying
    [(largest_name_width, phase_map)].  [getsize] is the width
    [font.getsize(text)[0]] of a text in the legend font. *)
Definition phase_step (getsize : string -> Z)
    (acc : Z * PyDict.t phase_entry) (n : phase_node) : Z * PyDict.t phase_entry :=
  if pn_background n then acc
  else (Z.max (fst acc) (getsize (pn_name n)),
        PyDict.set (pn_id n) (entry_of_node n) (snd acc)).

Definition phase_loop (getsize : string -> Z) (nodes : list phase_node)
  : Z * PyDict.t phase_entry :=
  fold_left (phase_step getsize) nodes (0, []).

(** Two records that are not background and carry one id. *)
Fixpoint has_duplicate_id (nodes : list phase_node) : bool :=
  match nodes with
  | [] => false
  | n :: rest =>
      (negb (pn_background n) &&
       existsb (fun n' => negb (pn_background n') && (pn_id n' =? pn_id n)) rest)
      || has_duplicate_id rest
  end.

(** The last record of the list that is not background and has id [k]. *)
Definition last_with_id (k : Z) (nodes : list phase_node) : option phase_node :=
  find (fun n => negb (pn_background n) && (pn_id n =? k)) (rev nodes).

(** ** Legend layout *)

Definition font_size : Z := 24.

(** [legend_line_height = int(math.ceil(font_size * 1.3))] *)
Definition legend_line_height : Z :=
  match PyFloat.ceil_int (PyFloat.mul (PyFloat.of_int font_size) PyFloat.c_1_3) with
  | Ok h => h
  | Err _ => 0
  end.

Definition legend_text_x_offset : Z := legend_line_height * 2 - font_size.

Record layout : Type := {
  max_numeric_width : Z;
  legend_start_x : Z;
  percent_right_x : Z;
  canvas_size : Z * Z
}.

(** Lines 249 to 254 of the script. *)
Definition layout_of (getsize : string -> Z) (diameter largest_name_width : Z)
  : result layout :=
  let max_numeric_width := getsize "<0.01"%string in
  legend_start_x <- PyFloat.ceil_int (PyFloat.of_int (diameter + 30)) ;;
  let percent_right_x :=
    diameter + legend_text_x_offset + largest_name_width + max_numeric_width
    + legend_line_height - font_size in
  Ok {| max_numeric_width := max_numeric_width;
        legend_start_x := legend_start_x;
        percent_right_x := percent_right_x;
        canvas_size := (percent_right_x, diameter) |}.

(** The right edge of the percentage column as the specification states
    it, measured from [legend_start_x]. *)
Definition percent_column_right_x_stated
    (legend_start largest_name_width max_percent_width : Z) : Z :=
  legend_start + legend_text_x_offset + largest_name_width + max_percent_width
  + legend_line_height - font_size.

(** ** Canvas and rasters *)

(** An RGB image: its size and the pixels written so far, newest first;
    every other pixel has the colour the image was created with. *)
Record canvas : Type := {
  cv_size : Z * Z;
  cv_background : colour;
  cv_written : list (Z * Z * colour)
}.

(** [Image.new('RGB', size, colour)] *)
Definition image_new (size : Z * Z) (c : colour) : canvas :=
  {| cv_size := size; cv_background := c; cv_written := [] |}.



(** [png_array[x, y] = c]; a position outside the image is an [IndexError]. *)
Definition canvas_put (cv : canvas) (x y : Z) (c : colour) : result canvas :=
  if (0 <=? x) && (x <? fst (cv_size cv)) && (0 <=? y) && (y <? snd (cv_size cv))
  then Ok {| cv_size := cv_size cv; cv_background := cv_background cv;
             cv_written := (x, y, c) :: cv_written cv |}
  else Err IndexError.

(** A single-band image as its rows. *)
Definition raster : Type := list (list Z).

(** [array[x, y]] *)
Definition raster_get (r : raster) (x y : Z) : result Z :=
  match nth_error r (Z.to_nat y) with
  | Some row =>
      match nth_error row (Z.to_nat x) with
      | Some v => Ok v
      | None => Err IndexError
      end
  | None => Err IndexError
  end.

(** The two images of a field directory: [phases.tif] and [mask.png]. *)
Record tile : Type := {
  tile_phases : raster;
  tile_mask : raster
}.

(** ** Compositing *)

Definition thumbnail_start : Z := 1000000000.

Record state : Type := {
  png : canvas;
  classified_pixel_count : Z;
  thumbnail_x_min : Z;
  thumbnail_x_max : Z;
  thumbnail_y_min : Z;
  thumbnail_y_max : Z;
  phase_map : PyDict.t phase_entry;
  field_phase_map : PyDict.t phase_entry;
  (* the rows handed to [db_run(insert)], one list per field that has any *)
  occurrences : list (string * list (Z * phase_entry))
}.

Definition initial_state (size : Z * Z) (pm : PyDict.t phase_entry) : state :=
  {| png := image_new size white;
     classified_pixel_count := 0;
     thumbnail_x_min := thumbnail_start;
     thumbnail_x_max := -1;
     thumbnail_y_min := thumbnail_start;
     thumbnail_y_max := -1;
     phase_map := pm;
     field_phase_map := [];
     occurrences := [] |}.

Definition classified (phase_index mask_index : Z) : bool :=
  negb (phase_index =? 0) && negb (mask_index =? 0).

(** The body of the pixel loop, lines 306 to 320. *)
Definition pixel_step (f : field) (x y phase_index mask_index : Z) (st : state)
  : result state :=
  if classified phase_index mask_index then
    entry <- PyDict.lookup phase_index (phase_map st) ;;
    match field_x f, field_y f with
    | Some fx, Some fy =>
        let png_x := x + fx in
        let png_y := y + fy in
        png' <- canvas_put (png st) png_x png_y (entry_colour entry) ;;
        phase_map' <- PyDict.update phase_index bump (phase_map st) ;;
        field_phase_map' <- PyDict.update phase_index bump (field_phase_map st) ;;
        Ok {| png := png';
              classified_pixel_count := classified_pixel_count st + 1;
              thumbnail_x_min := Z.min (thumbnail_x_min st) png_x;
              thumbnail_x_max := Z.max (thumbnail_x_max st) png_x;
              thumbnail_y_min := Z.min (thumbnail_y_min st) png_y;
              thumbnail_y_max := Z.max (thumbnail_y_max st) png_y;
              phase_map := phase_map';
              field_phase_map := field_phase_map';
              occurrences := occurrences st |}
    | _, _ => Err ValueError     (* a nan or infinite offset is no pixel index *)
    end
  else Ok st.

Fixpoint for_each {A S : Type} (l : list A) (body : A -> S -> result S) (s : S)
  : result S :=
  match l with
  | [] => Ok s
  | a :: rest => s' <- body a s ;; for_each rest body s'
  end.

(** [range(0, n)] *)
Definition range (n : Z) : list Z := map Z.of_nat (seq 0 (Z.to_nat n)).

Definition visit_pixel (tl : tile) (f : field) (y x : Z) (st : state) : result state :=
  phase_index <- raster_get (tile_phases tl) x y ;;
  mask_index <- raster_get (tile_mask tl) x y ;;
  pixel_step f x y phase_index mask_index st.

(** [for y in range(0, image_height_px): for x in range(0, image_width_px): ...] *)
Definition field_pixels (m : measurement) (tl : tile) (f : field) (st : state)
  : result state :=
  for_each (range (image_height_px m))
    (fun y => for_each (range (image_width_px m)) (visit_pixel tl f y)) st.

Definition nonzero (e : phase_entry) : bool := negb (histogram e =? 0).

(** [sorted(d.items(), key = lambda x: x[1]['histogram'], reverse = True)]:
    a stable sort, entries of equal count keep the order of [items]. *)
Definition by_key_descending {A : Type} (key : A -> Z) (a b : A) : bool :=
  key b <? key a.

Definition sorted_by_histogram (d : PyDict.t phase_entry) : list (Z * phase_entry) :=
  PyDict.stable_sort (by_key_descending (fun kv => histogram (snd kv)))
                     (PyDict.items d).

Definition with_field_phase_map (st : state) (fpm : PyDict.t phase_entry) : state :=
  {| png := png st;
     classified_pixel_count := classified_pixel_count st;
     thumbnail_x_min := thumbnail_x_min st;
     thumbnail_x_max := thumbnail_x_max st;
     thumbnail_y_min := thumbnail_y_min st;
     thumbnail_y_max := thumbnail_y_max st;
     phase_map := phase_map st;
     field_phase_map := fpm;
     occurrences := occurrences st |}.

Definition with_occurrence (st : state) (row : string * list (Z * phase_entry)) : state :=
  {| png := png st;
     classified_pixel_count := classified_pixel_count st;
     thumbnail_x_min := thumbnail_x_min st;
     thumbnail_x_max := thumbnail_x_max st;
     thumbnail_y_min := thumbnail_y_min st;
     thumbnail_y_max := thumbnail_y_max st;
     phase_map := phase_map st;
     field_phase_map := field_phase_map st;
     occurrences := occurrences st ++ [row] |}.

(** The body of the loop over [fields], lines 295 to 342. *)
Definition field_step (m : measurement) (tiles : string -> tile)
    (empty_phase_map : PyDict.t phase_entry) (f : field) (st : state) : result state :=
  let st0 := with_field_phase_map st (PyDict.deepcopy empty_phase_map) in
  st1 <- field_pixels m (tiles (field_name f)) f st0 ;;
  let rows := sorted_by_histogram (PyDict.filter_values nonzero (field_phase_map st1)) in
  Ok (match rows with
      | [] => st1
      | _ :: _ => with_occurrence st1 (field_name f, rows)
      end).

Definition composite (m : measurement) (tiles : string -> tile)
    (empty_phase_map : PyDict.t phase_entry) (fields : list field) (st : state)
  : result state :=
  for_each fields (field_step m tiles empty_phase_map) st.

Definition sum_histogram (l : list (Z * phase_entry)) : Z :=
  fold_right (fun kv acc => histogram (snd kv) + acc) 0 l.

Definition sum_occurrences (o : list (string * list (Z * phase_entry))) : Z :=
  fold_right (fun row acc => sum_histogram (snd row) + acc) 0 o.

(** ** Loop invariants

    Relations between the state before a loop and the state after it. *)

(** Through the pixel loop of one field. *)
Definition pixels_grow (s0 s : state) : Prop :=
  classified_pixel_count s0 <= classified_pixel_count s /\
  sum_histogram (phase_map s) =
    sum_histogram (phase_map s0) + (classified_pixel_count s - classified_pixel_count s0) /\
  sum_histogram (field_phase_map s) =
    sum_histogram (field_phase_map s0) + (classified_pixel_count s - classified_pixel_count s0) /\
  occurrences s = occurrences s0 /\
  PyDict.keys (phase_map s) = PyDict.keys (phase_map s0) /\
  PyDict.keys (field_phase_map s) = PyDict.keys (field_phase_map s0) /\
  (classified_pixel_count s = classified_pixel_count s0 -> s = s0).

(** Through the loop over the fields. *)
Definition fields_grow (s0 s : state) : Prop :=
  classified_pixel_count s0 <= classified_pixel_count s /\
  sum_histogram (phase_map s) =
    sum_histogram (phase_map s0) + (classified_pixel_count s - classified_pixel_count s0) /\
  sum_occurrences (occurrences s) =
    sum_occurrences (occurrences s0) + (classified_pixel_count s - classified_pixel_count s0) /\
  PyDict.keys (phase_map s) = PyDict.keys (phase_map s0) /\
  (classified_pixel_count s = classified_pixel_count s0 ->
   png s = png s0 /\
   thumbnail_x_min s = thumbnail_x_min s0 /\ thumbnail_x_max s = thumbnail_x_max s0 /\
   thumbnail_y_min s = thumbnail_y_min s0 /\ thumbnail_y_max s = thumbnail_y_max s0 /\
   phase_map s = phase_map s0 /\ occurrences s = occurrences s0).

(** ** Percentage text *)

Definition digit (d : Z) : ascii := ascii_of_nat (48 + Z.to_nat d).

Fixpoint decimal_digits (fuel : nat) (n : Z) (acc : string) : string :=
  match fuel with
  | O => acc
  | S fuel' =>
      let acc' := String (digit (n mod 10)) acc in
      if n <? 10 then acc' else decimal_digits fuel' (n / 10) acc'
  end.

(** The decimal numeral of a natural number. *)
Definition numeral (n : Z) : string :=
  decimal_digits (S (Z.to_nat (Z.log2 n))) n EmptyString.

(** Nearest integer to a non-negative rational, halves to even: the
    rounding of float formatting. *)
Definition round_half_even (q : Q) : Z :=
  let f := Qfloor q in
  match Qcompare (q - inject_Z f) (1 # 2) with
  | Lt => f
  | Gt => f + 1
  | Eq => if Z.even f then f else f + 1
  end.

(** Sign, integer digits, point, two decimals. *)
Definition fixed2 (negative : bool) (magnitude : Q) : string :=
  let n := round_half_even (magnitude * 100) in
  ((if negative then "-" else "") ++ numeral (n / 100) ++ "." ++
   String (digit ((n / 10) mod 10)) (String (digit (n mod 10)) EmptyString))%string.

Fixpoint spaces (n : nat) : string :=
  match n with
  | O => EmptyString
  | S n' => String " "%char (spaces n')
  end.

Definition pad_left (width : nat) (s : string) : string :=
  (spaces (width - String.length s) ++ s)%string.

(** ["{:4.2f}".format(value)] *)
Definition format_4_2f (value : PyFloat.t) : string :=
  pad_left 4
    match value with
    | S754_nan => "nan"%string
    | S754_infinity s => if s then "-inf"%string else "inf"%string
    | S754_zero s => fixed2 s 0
    | S754_finite s m e =>
        match PyFloat.value (S754_finite false m e) with
        | Some q => fixed2 s q
        | None => "nan"%string
        end
    end.

Definition get_percent_text (value : PyFloat.t) : string :=
  if PyFloat.ltb value PyFloat.c_0_01 then "<0.01"%string
  else format_4_2f value.

(** ** Legend and thumbnail *)

(** What the legend loop draws for one phase: the swatch rectangle at
    [(legend_start_x, y)], the name, and the percentage text with the x
    it starts at. *)
Record legend_row : Type := {
  row_id : Z;
  row_y : Z;
  row_fill : colour;
  row_name : string;
  row_name_x : Z;
  row_text : string;
  row_text_x : Z
}.

(** [for id, phase_map_entry in phase_map: ...], lines 352 to 358. *)
Fixpoint legend_loop (getsize : string -> Z) (lay : layout) (count : Z)
    (entries : list (Z * phase_entry)) (y : Z) : result (list legend_row) :=
  match entries with
  | [] => Ok []
  | (id, e) :: rest =>
      share <- PyFloat.truediv (PyFloat.of_int (histogram e)) (PyFloat.of_int count) ;;
      let text := get_percent_text (PyFloat.mul share (PyFloat.of_int 100)) in
      let row := {| row_id := id; row_y := y; row_fill := entry_colour e;
                    row_name := mineral_name e;
                    row_name_x := legend_start_x lay + legend_text_x_offset;
                    row_text := text;
                    row_text_x := percent_right_x lay - getsize text |} in
      rows <- legend_loop getsize lay count rest (y + legend_line_height) ;;
      Ok (row :: rows)
  end.

(** The legend's phase list: lines 345 and 348. *)
Definition legend_phases (pm : PyDict.t phase_entry) : list (Z * phase_entry) :=
  sorted_by_histogram (PyDict.filter_values nonzero pm).

Record input : Type := {
  in_phases : list phase_node;
  in_measurement : measurement;
  in_fields : list field_node;
  in_tiles : string -> tile;
  in_getsize : string -> Z
}.

Record output : Type := {
  out_layout : layout;
  out_fields : list field;
  out_png : canvas;
  out_classified_pixel_count : Z;
  out_occurrences : list (string * list (Z * phase_entry));
  out_legend : list legend_row;
  (* the box handed to [png.crop] *)
  out_thumbnail_bbox : Z * Z * Z * Z
}.

(** The script up to the end of the loop over the fields. *)
Definition composited (inp : input) : result (layout * list field * state) :=
  let '(largest_name_width, phase_map) := phase_loop (in_getsize inp) (in_phases inp) in
  let empty_phase_map := PyDict.deepcopy phase_map in
  let m := in_measurement inp in
  diameter <- diameter_px m ;;
  lay <- layout_of (in_getsize inp) diameter largest_name_width ;;
  spacing <- pixel_spacing m ;;
  let g := {| g_measurement := m; g_diameter_px := diameter;
              g_origin := origin diameter; g_pixel_spacing := spacing |} in
  fields <- fields_loop g (in_fields inp) [] ;;
  st <- composite m (in_tiles inp) empty_phase_map fields
                  (initial_state (canvas_size lay) phase_map) ;;
  Ok (lay, fields, st).

(** From the legend to the crop. *)
Definition finish (getsize : string -> Z) (lay : layout) (fields : list field)
    (st : state) : result output :=
  rows <- legend_loop getsize lay (classified_pixel_count st)
                      (legend_phases (phase_map st)) 0 ;;
  Ok {| out_layout := lay;
        out_fields := fields;
        out_png := png st;
        out_classified_pixel_count := classified_pixel_count st;
        out_occurrences := occurrences st;
        out_legend := rows;
        out_thumbnail_bbox :=
          (thumbnail_x_min st, thumbnail_y_min st,
           thumbnail_x_max st, thumbnail_y_max st) |}.

Definition run (inp : input) : result output :=
  r <- composited inp ;;
  let '(lay, fields, st) := r in
  finish (in_getsize inp) lay fields st.

(** ** Sample data *)

Definition red : colour := (255, 0, 0).
Definition blue : colour := (0, 0, 255).

Definition sample_phase (id : Z) (name hex : string) (c : colour) : phase_node :=
  {| pn_background := false; pn_id := id; pn_name := name; pn_colour := c;
     pn_colour_hex := hex; pn_mass := PyFloat.of_int 1; pn_mineral_id := id |}.

(** A monospaced font, 14 pixels a character. *)
Definition mono_getsize (s : string) : Z := 14 * Z.of_nat (String.length s).

Definition sample_measurement : measurement :=
  {| view_field_um := 4; image_width_px := 2; image_height_px := 1;
     sample_diameter_um := 16 |}.

Definition sample_input (phases : list phase_node) (tl : tile) : input :=
  {| in_phases := phases;
     in_measurement := sample_measurement;
     in_fields := [ {| node_name := "f1"; node_x := PyFloat.of_int 0;
                       node_y := PyFloat.of_int 0 |} ];
     in_tiles := fun _ => tl;
     in_getsize := mono_getsize |}.

(** What the script derives from [sample_measurement]: a diameter of 8
    pixels, the origin at (4, 4), two micrometres a pixel. *)
Definition sample_geometry : geometry :=
  {| g_measurement := sample_measurement; g_diameter_px := 8;
     g_origin := origin 8; g_pixel_spacing := PyFloat.of_int 2 |}.


(** The float 1.5. *)
Definition one_and_a_half : PyFloat.t := S754_finite false 6755399441055744 (-52).

(** The largest float below one half. *)
Definition below_half : PyFloat.t := S754_finite false 9007199254740991 (-54).

Definition quartz : phase_node := sample_phase 1 "quartz" "#ff0000" red.
Definition albite : phase_node := sample_phase 8 "albite" "#0000ff" blue.
Definition albite_as_1 : phase_node := sample_phase 1 "albite" "#0000ff" blue.

(** One row of two pixels, phase 1 then phase 8, fully masked in. *)
Definition two_phase_tile : tile :=
  {| tile_phases := [[1; 8]]; tile_mask := [[255; 255]] |}.

(** The same row with a mask of zeros. *)
Definition masked_out_tile : tile :=
  {| tile_phases := [[1; 8]]; tile_mask := [[0; 0]] |}.

(** The first pixel masked out, the second classified. *)
Definition half_masked_tile : tile :=
  {| tile_phases := [[1; 8]]; tile_mask := [[0; 255]] |}.

(** ** Text attributes

    Attribute values are byte strings, as ElementTree hands out for
    ASCII text. *)

(** The characters [re.sub('[^[a-f0-9]', '', measurement_guid)] keeps:
    the class lists an opening bracket, [a] to [f] and the digits. *)
Definition guid_char (c : ascii) : bool :=
  let n := nat_of_ascii c in
  ((n =? 91) || ((97 <=? n) && (n <=? 102)) || ((48 <=? n) && (n <=? 57)))%nat.

(** [measurement_guid = re.sub('[^[a-f0-9]', '', measurement_guid)] *)
Fixpoint clean_guid (s : string) : string :=
  match s with
  | EmptyString => EmptyString
  | String c rest =>
      if guid_char c then String c (clean_guid rest) else clean_guid rest
  end.

(** [phase_map_entry['colour_hex'].replace('#', 'x')] *)
Fixpoint replace_hash (s : string) : string :=
  match s with
  | EmptyString => EmptyString
  | String c rest =>
      String (if Ascii.eqb c "#" then "x"%char else c) (replace_hash rest)
  end.

(** A slice [s[i:i+2]] holds at most two characters. *)
Inductive pair_slice : Type :=
| NoChar
| OneChar (a : ascii)
| TwoChars (a b : ascii).

Definition slice_pair (s : string) (i : nat) : pair_slice :=
  match substring i 2 s with
  | EmptyString => NoChar
  | String a EmptyString => OneChar a
  | String a (String b _) => TwoChars a b
  end.

Definition hex_value (c : ascii) : option Z :=
  let n := nat_of_ascii c in
  if ((48 <=? n) && (n <=? 57))%nat then Some (Z.of_nat n - 48)
  else if ((97 <=? n) && (n <=? 102))%nat then Some (Z.of_nat n - 87)
  else if ((65 <=? n) && (n <=? 70))%nat then Some (Z.of_nat n - 55)
  else None.

(** White space of the C locale. *)
Definition is_space (c : ascii) : bool :=
  let n := nat_of_ascii c in
  (((9 <=? n) && (n <=? 13)) || (n =? 32))%nat.

(** [int(t, 16)] for a slice [t] of at most two characters: white space
    around the digits is skipped, one sign may lead, anything else is a
    [ValueError]. *)
Definition int16 (t : pair_slice) : result Z :=
  match t with
  | NoChar => Err ValueError
  | OneChar a =>
      match hex_value a with
      | Some v => Ok v
      | None => Err ValueError
      end
  | TwoChars a b =>
      match hex_value a, hex_value b with
      | Some u, Some v => Ok (16 * u + v)
      | Some u, None => if is_space b then Ok u else Err ValueError
      | None, Some v =>
          if is_space a then Ok v
          else if Ascii.eqb a "+" then Ok v
          else if Ascii.eqb a "-" then Ok (- v)
          else Err ValueError
      | None, None => Err ValueError
      end
  end.

(** The value of ['colour'], lines 197 to 200:
[[
    (int(colour_str[1:3], 16), int(colour_str[3:5], 16), int(colour_str[5:7], 16))
]] *)
Definition parse_colour (colour_str : string) : result colour :=
  r <- int16 (slice_pair colour_str 1) ;;
  g <- int16 (slice_pair colour_str 3) ;;
  b <- int16 (slice_pair colour_str 5) ;;
  Ok (r, g, b).

(** The hexadecimal digit of a value below sixteen, in either case. *)
Definition hex_char (upper : bool) (d : Z) : ascii :=
  if d <? 10 then ascii_of_nat (48 + Z.to_nat d)
  else ascii_of_nat ((if upper then 55 else 87) + Z.to_nat d).

(** ** More loop invariants *)



(** What holds of every list of rows written out for a field. *)
Definition rows_ok (fields : list field) (row : string * list (Z * phase_entry)) : Prop :=
  In (fst row) (map field_name fields) /\
  snd row <> [] /\
  NoDup (map fst (snd row)) /\
  Forall (fun kv => 1 <= histogram (snd kv)) (snd row) /\
  StronglySorted (fun a b => histogram (snd b) <= histogram (snd a)) (snd row).

(** The name of every phase stays what the catalogue gave it. *)
Definition names_kept (s0 s : state) : Prop :=
  forall k, option_map mineral_name (PyDict.get k (phase_map s)) =
            option_map mineral_name (PyDict.get k (phase_map s0)).

(* ================================================================== *)
(** * Part II.  Theorems                                               *)
(* ================================================================== *)

Section RoundingFacts.
Open Scope Q_scope.











End RoundingFacts.







Lemma field_of_node_transform (g : geometry) (n : field_node) :
  field_of_node g n =
  (p <- physical_to_canvas g (node_x n) (node_y n) ;;
   Ok {| field_name := node_name n; field_x := fst p; field_y := snd p |}).
Proof.
  unfold field_of_node, physical_to_canvas, axis_px.
  destruct (PyFloat.truediv (PyFloat.neg (node_x n)) (g_pixel_spacing g)); simpl; [|reflexivity].
  destruct (PyFloat.truediv (node_y n) (g_pixel_spacing g)); reflexivity.
Qed.

Lemma fields_loop_acc (g : geometry) (nodes : list field_node) :
  forall acc fs, fields_loop g nodes acc = Ok fs ->
  exists new, fs = acc ++ new /\ Forall2 (fun n f => field_of_node g n = Ok f) nodes new.
Proof.
  induction nodes as [|n rest IH]; simpl; intros acc fs H.
  - inversion H; subst. exists []. split; [now rewrite app_nil_r | constructor].
  - destruct (field_of_node g n) as [f|e] eqn:Ef; simpl in H; [|discriminate].
    destruct (IH _ _ H) as [new [-> Hnew]].
    exists (f :: new). split; [now rewrite <- app_assoc | now constructor].
Qed.

(** C1.  Every entry of [fields] carries the name of its node and the
    position the transform gives for the node's offset: x from the
    negated dx, y from dy as it is. *)
Theorem fields_loop_physical_to_canvas
    (g : geometry) (nodes : list field_node) (fields : list field) :
  fields_loop g nodes [] = Ok fields ->
  Forall2 (fun n f =>
             field_name f = node_name n /\
             physical_to_canvas g (node_x n) (node_y n) = Ok (field_x f, field_y f))
          nodes fields.
Proof.
  intros H. destruct (fields_loop_acc g nodes [] fields H) as [new [-> Hnew]]. simpl.
  clear H. induction Hnew as [|n f ns fs Hf _ IH]; constructor; [|exact IH].
  rewrite field_of_node_transform in Hf.
  destruct (physical_to_canvas g (node_x n) (node_y n)) as [[x y]|e]; simpl in Hf; [|discriminate].
  inversion Hf; subst; simpl. split; reflexivity.
Qed.



(** ** Dictionaries *)

Section DictFacts.
Context {V : Type}.
Implicit Types (d : PyDict.t V) (k : Z) (v : V).

Lemma get_set_same k v d : PyDict.get k (PyDict.set k v d) = Some v.
Proof.
  induction d as [|[k' v'] rest IH]; simpl.
  - now rewrite Z.eqb_refl.
  - destruct (k =? k') eqn:E; simpl; rewrite ?Z.eqb_refl, ?E; auto.
Qed.

Lemma get_set_other k k' v d :
  k <> k' -> PyDict.get k (PyDict.set k' v d) = PyDict.get k d.
Proof.
  intros N. induction d as [|[k0 v0] rest IH]; simpl.
  - destruct (k =? k') eqn:E; [apply Z.eqb_eq in E; contradiction | reflexivity].
  - destruct (k' =? k0) eqn:E; simpl.
    + apply Z.eqb_eq in E; subst k0.
      destruct (k =? k') eqn:E'; [apply Z.eqb_eq in E'; contradiction | reflexivity].
    + destruct (k =? k0); auto.
Qed.

Lemma In_keys_set k0 k v d :
  In k0 (PyDict.keys (PyDict.set k v d)) <-> k0 = k \/ In k0 (PyDict.keys d).
Proof.
  induction d as [|[k' v'] rest IH]; simpl.
  - intuition.
  - destruct (k =? k') eqn:E; simpl.
    + apply Z.eqb_eq in E; subst. intuition.
    + rewrite IH. intuition.
Qed.

Lemma NoDup_keys_set k v d :
  NoDup (PyDict.keys d) -> NoDup (PyDict.keys (PyDict.set k v d)).
Proof.
  induction d as [|[k' v'] rest IH]; simpl; intros H.
  - constructor; [intros [] | constructor].
  - inversion H as [|? ? Hnot Hrest]; subst.
    destruct (k =? k') eqn:E; simpl.
    + apply Z.eqb_eq in E; subst. now constructor.
    + constructor; [|auto].
      rewrite In_keys_set. intros [->|Hin]; [|contradiction].
      rewrite Z.eqb_refl in E. discriminate.
Qed.

Lemma In_set (kv : Z * V) k v d :
  In kv (PyDict.set k v d) -> kv = (k, v) \/ In kv d.
Proof.
  induction d as [|[k' v'] rest IH]; simpl.
  - intuition.
  - destruct (k =? k'); simpl; intuition.
Qed.

Lemma set_fresh k v d :
  ~ In k (PyDict.keys d) -> PyDict.set k v d = d ++ [(k, v)].
Proof.
  induction d as [|[k' v'] rest IH]; simpl; intros H; [reflexivity|].
  destruct (k =? k') eqn:E.
  - apply Z.eqb_eq in E. subst. exfalso. apply H. now left.
  - f_equal. apply IH. intros Hin. apply H. now right.
Qed.

Lemma fold_set_nodup (l : list (Z * V)) : forall d,
  NoDup (PyDict.keys (d ++ l)) ->
  fold_left (fun d kv => PyDict.set (fst kv) (snd kv) d) l d = d ++ l.
Proof.
  induction l as [|[k v] rest IH]; intros d H; simpl.
  - now rewrite app_nil_r.
  - rewrite set_fresh.
    + rewrite IH; rewrite <- app_assoc; [reflexivity | exact H].
    + unfold PyDict.keys in H. rewrite map_app in H. simpl in H.
      apply NoDup_remove_2 in H. intros Hin. apply H.
      apply in_or_app. now left.
Qed.

Lemma of_list_nodup (l : list (Z * V)) :
  NoDup (PyDict.keys l) -> PyDict.of_list l = l.
Proof. intros H. unfold PyDict.of_list. now rewrite fold_set_nodup. Qed.

Lemma update_keys k (f : V -> V) d d' :
  PyDict.update k f d = Ok d' -> PyDict.keys d' = PyDict.keys d.
Proof.
  revert d'. induction d as [|[k' v'] rest IH]; simpl; intros d' H; [discriminate|].
  destruct (k =? k').
  - inversion H; reflexivity.
  - destruct (PyDict.update k f rest) as [r|e]; simpl in H; [|discriminate].
    inversion H; subst; simpl. f_equal. now apply IH.
Qed.

Lemma update_get k (f : V -> V) d d' :
  PyDict.update k f d = Ok d' ->
  PyDict.get k d' = option_map f (PyDict.get k d) /\
  forall k0, k0 <> k -> PyDict.get k0 d' = PyDict.get k0 d.
Proof.
  revert d'. induction d as [|[k' v'] rest IH]; simpl; intros d' H; [discriminate|].
  destruct (k =? k') eqn:E.
  - apply Z.eqb_eq in E; subst k'. inversion H; subst; simpl.
    rewrite Z.eqb_refl. split; [reflexivity|]. intros k0 N.
    destruct (k0 =? k) eqn:E0; [apply Z.eqb_eq in E0; contradiction | reflexivity].
  - destruct (PyDict.update k f rest) as [r|e]; simpl in H; [|discriminate].
    inversion H; subst; simpl. rewrite E.
    destruct (IH r eq_refl) as [IH1 IH2]. split; [exact IH1|].
    intros k0 N. destruct (k0 =? k'); auto.
Qed.

Lemma update_present k (f : V -> V) d v :
  PyDict.get k d = Some v -> exists d', PyDict.update k f d = Ok d'.
Proof.
  induction d as [|[k' v'] rest IH]; simpl; [discriminate|].
  destruct (k =? k'); intros H.
  - eexists; reflexivity.
  - destruct (IH H) as [r ->]. eexists; reflexivity.
Qed.

(** Sorting permutes. *)
Lemma insert_sorted_perm {A : Type} (before : A -> A -> bool) (x : A) (l : list A) :
  Permutation (PyDict.insert_sorted before x l) (x :: l).
Proof.
  induction l as [|y rest IH]; simpl; [reflexivity|].
  destruct (before y x); [|reflexivity].
  rewrite IH. apply perm_swap.
Qed.

Lemma stable_sort_perm {A : Type} (before : A -> A -> bool) (l : list A) :
  Permutation (PyDict.stable_sort before l) l.
Proof.
  induction l as [|x rest IH]; simpl; [reflexivity|].
  rewrite insert_sorted_perm. now constructor.
Qed.

Lemma items_perm d : Permutation (PyDict.items d) d.
Proof. apply stable_sort_perm. Qed.

Lemma NoDup_keys_perm (l l' : list (Z * V)) :
  Permutation l l' -> NoDup (PyDict.keys l') -> NoDup (PyDict.keys l).
Proof.
  intros P H. eapply Permutation_NoDup; [|exact H].
  apply Permutation_map. now symmetry.
Qed.

Lemma NoDup_keys_filter (p : Z * V -> bool) (l : list (Z * V)) :
  NoDup (PyDict.keys l) -> NoDup (PyDict.keys (filter p l)).
Proof.
  induction l as [|[k v] rest IH]; simpl; intros H; [constructor|].
  inversion H as [|? ? Hnot Hrest]; subst.
  destruct (p (k, v)); simpl; [|auto].
  constructor; [|auto].
  intros Hin. apply Hnot. unfold PyDict.keys in *.
  apply in_map_iff in Hin. destruct Hin as [kv [E Hin]].
  apply filter_In in Hin. apply in_map_iff. exists kv. tauto.
Qed.

Lemma filter_perm {A : Type} (p : A -> bool) (l l' : list A) :
  Permutation l l' -> Permutation (filter p l) (filter p l').
Proof.
  induction 1 as [|x l l' _ IH|x y l|l l' l'' _ IH1 _ IH2]; simpl.
  - constructor.
  - destruct (p x); [now constructor | exact IH].
  - destruct (p x), (p y); try reflexivity. apply perm_swap.
  - now transitivity (filter p l').
Qed.

Lemma deepcopy_perm d : NoDup (PyDict.keys d) -> Permutation (PyDict.deepcopy d) d.
Proof.
  intros H. unfold PyDict.deepcopy.
  rewrite of_list_nodup; [apply items_perm|].
  eapply NoDup_keys_perm; [apply items_perm | exact H].
Qed.

Lemma filter_values_perm (keep : V -> bool) d :
  NoDup (PyDict.keys d) ->
  Permutation (PyDict.filter_values keep d) (filter (fun kv => keep (snd kv)) d).
Proof.
  intros H. unfold PyDict.filter_values.
  rewrite of_list_nodup.
  - apply filter_perm, items_perm.
  - apply NoDup_keys_filter. eapply NoDup_keys_perm; [apply items_perm | exact H].
Qed.
End DictFacts.

(** ** Phase catalogue *)

Lemma find_app {A : Type} (p : A -> bool) (l1 l2 : list A) :
  find p (l1 ++ l2) = match find p l1 with Some a => Some a | None => find p l2 end.
Proof.
  induction l1 as [|a l1 IH]; simpl; [reflexivity|].
  destruct (p a); [reflexivity | exact IH].
Qed.

Lemma phase_loop_get_acc (getsize : string -> Z) (nodes : list phase_node) :
  forall acc k,
  PyDict.get k (snd (fold_left (phase_step getsize) nodes acc)) =
  match last_with_id k nodes with
  | Some n => Some (entry_of_node n)
  | None => PyDict.get k (snd acc)
  end.
Proof.
  induction nodes as [|n rest IH]; intros acc k; simpl; [reflexivity|].
  rewrite IH. unfold last_with_id. simpl rev. rewrite find_app.
  destruct (find _ (rev rest)) as [n'|]; [reflexivity|]. simpl.
  unfold phase_step.
  destruct (pn_background n); simpl; [reflexivity|].
  rewrite (Z.eqb_sym (pn_id n) k).
  destruct (k =? pn_id n) eqn:E.
  - apply Z.eqb_eq in E. subst k. apply get_set_same.
  - apply get_set_other. intros ->. now rewrite Z.eqb_refl in E.
Qed.

Lemma phase_loop_keys_acc (getsize : string -> Z) (nodes : list phase_node) :
  forall acc,
  NoDup (PyDict.keys (snd acc)) ->
  Forall (fun kv => histogram (snd kv) = 0) (snd acc) ->
  NoDup (PyDict.keys (snd (fold_left (phase_step getsize) nodes acc))) /\
  Forall (fun kv => histogram (snd kv) = 0)
         (snd (fold_left (phase_step getsize) nodes acc)).
Proof.
  induction nodes as [|n rest IH]; intros acc Hnd Hz; simpl; [tauto|].
  apply IH; unfold phase_step; destruct (pn_background n); simpl; auto.
  - now apply NoDup_keys_set.
  - rewrite Forall_forall in *. intros kv Hin.
    apply In_set in Hin. destruct Hin as [-> | Hin]; [reflexivity | auto].
Qed.

Lemma phase_loop_wf (getsize : string -> Z) (nodes : list phase_node) :
  NoDup (PyDict.keys (snd (phase_loop getsize nodes))) /\
  Forall (fun kv => histogram (snd kv) = 0) (snd (phase_loop getsize nodes)).
Proof. apply phase_loop_keys_acc; simpl; constructor. Qed.

(** C5, as the script does it.  Building the catalogue cannot fail on a
    repeated id: [phase_map[id] = ...] is a plain dictionary assignment,
    so the catalogue maps every id to the last record that is not
    background and carries it. *)
Theorem phase_loop_last_record_wins
    (getsize : string -> Z) (nodes : list phase_node) (k : Z) :
  PyDict.get k (snd (phase_loop getsize nodes)) =
  option_map entry_of_node (last_with_id k nodes).
Proof.
  unfold phase_loop. rewrite phase_loop_get_acc. simpl.
  destruct (last_with_id k nodes); reflexivity.
Qed.

(** ** Legend layout *)

Example legend_line_height_32 : legend_line_height = 32.
Proof. reflexivity. Qed.

Example legend_text_x_offset_40 : legend_text_x_offset = 40.
Proof. reflexivity. Qed.

(** ** Percentage text *)

Lemma SFcompare_antisym (x y : PyFloat.t) :
  SFcompare y x = option_map CompOpp (SFcompare x y).
Proof.
  destruct x as [sx | sx | | sx mx ex], y as [sy | sy | | sy my ey]; simpl;
    try reflexivity; try (destruct sx; reflexivity); try (destruct sy; reflexivity);
    try (destruct sx, sy; reflexivity).
  pose proof (Pos.compare_cont_antisym mx my Eq) as P. simpl in P.
  destruct sx, sy; simpl; try reflexivity;
    rewrite (Z.compare_antisym ey ex); destruct (ey ?= ex) eqn:E; simpl; try reflexivity;
    rewrite <- P; destruct (Pos.compare_cont Eq mx my); reflexivity.
Qed.

Lemma leb_not_ltb (c x : PyFloat.t) :
  PyFloat.leb c x = true -> PyFloat.ltb x c = false.
Proof.
  unfold PyFloat.leb, PyFloat.ltb, SFleb, SFltb.
  rewrite (SFcompare_antisym c x).
  destruct (SFcompare c x) as [[ | | ]|]; simpl; congruence.
Qed.

Lemma decimal_digits_last (fuel : nat) (n : Z) (acc : string) :
  n < 10 -> decimal_digits (S fuel) n acc = String (digit (n mod 10)) acc.
Proof.
  intros H. simpl. destruct (n <? 10) eqn:E; [reflexivity|].
  apply Z.ltb_ge in E. lia.
Qed.

Lemma decimal_digits_more (fuel : nat) (n : Z) (acc : string) :
  10 <= n ->
  decimal_digits (S fuel) n acc =
  decimal_digits fuel (n / 10) (String (digit (n mod 10)) acc).
Proof.
  intros H. simpl. destruct (n <? 10) eqn:E; [|reflexivity].
  apply Z.ltb_lt in E. lia.
Qed.

Lemma numeral_length_1 (n : Z) : n < 10 -> String.length (numeral n) = 1%nat.
Proof. intros H. unfold numeral. now rewrite decimal_digits_last. Qed.

Lemma numeral_length_2 (n : Z) : 10 <= n < 100 -> String.length (numeral n) = 2%nat.
Proof.
  intros H. unfold numeral.
  assert (L : 3 <= Z.log2 n) by (change 3 with (Z.log2 8); apply Z.log2_le_mono; lia).
  destruct (Z.to_nat (Z.log2 n)) as [|k] eqn:E; [lia|].
  rewrite decimal_digits_more by lia.
  rewrite decimal_digits_last; [reflexivity|].
  apply Z.div_lt_upper_bound; lia.
Qed.

Lemma numeral_length_3 (n : Z) : 100 <= n < 1000 -> String.length (numeral n) = 3%nat.
Proof.
  intros H. unfold numeral.
  assert (L : 6 <= Z.log2 n) by (change 6 with (Z.log2 64); apply Z.log2_le_mono; lia).
  destruct (Z.to_nat (Z.log2 n)) as [|[|k]] eqn:E; try lia.
  rewrite decimal_digits_more by lia.
  rewrite decimal_digits_more by (apply Z.div_le_lower_bound; lia).
  rewrite decimal_digits_last; [reflexivity|].
  apply Z.div_lt_upper_bound; [lia|]. apply Z.div_lt_upper_bound; lia.
Qed.

Lemma numeral_nonempty (n : Z) : (1 <= String.length (numeral n))%nat.
Proof.
  unfold numeral. generalize (Z.to_nat (Z.log2 n)) as fuel.
  assert (G : forall fuel m acc,
             (String.length acc <= String.length (decimal_digits fuel m acc))%nat).
  { induction fuel as [|fuel IH]; intros m acc; simpl; [lia|].
    destruct (m <? 10); simpl; [lia|].
    etransitivity; [|apply IH]. simpl. lia. }
  intros fuel. simpl. destruct (n <? 10); simpl; [lia|].
  etransitivity; [|apply G]. simpl. lia.
Qed.

Lemma string_length_append (a b : string) :
  String.length (a ++ b) = (String.length a + String.length b)%nat.
Proof. induction a as [|c a IH]; simpl; [reflexivity | now rewrite IH]. Qed.

Lemma pad_left_long (width : nat) (s : string) :
  (width <= String.length s)%nat -> pad_left width s = s.
Proof.
  intros H. unfold pad_left.
  replace (width - String.length s)%nat with 0%nat by lia. reflexivity.
Qed.

Lemma fixed2_length (q : Q) :
  String.length (fixed2 false q) =
  (String.length (numeral (round_half_even (q * 100) / 100)) + 3)%nat.
Proof. unfold fixed2. simpl. rewrite string_length_append. simpl. lia. Qed.

(** C9, as the script does it.  Below the literal [0.01] the text is
    ["<0.01"]; from [0.01] on it is the value with two decimals, whose
    length is three more than the number of integer digits: 4 below ten,
    5 below a hundred, 6 from there to a thousand.  The length on that
    branch is therefore not constant. *)
Theorem get_percent_text_cases (x : PyFloat.t) :
  (PyFloat.ltb x PyFloat.c_0_01 = true -> get_percent_text x = "<0.01"%string) /\
  (PyFloat.leb PyFloat.c_0_01 x = true ->
   forall q, PyFloat.value x = Some q ->
   let n := round_half_even (q * 100) in
   get_percent_text x =
     (numeral (n / 100) ++ "." ++
      String (digit ((n / 10) mod 10)) (String (digit (n mod 10)) EmptyString))%string /\
   String.length (get_percent_text x) = (String.length (numeral (n / 100)) + 3)%nat /\
   (n < 1000 -> String.length (get_percent_text x) = 4%nat) /\
   (1000 <= n < 10000 -> String.length (get_percent_text x) = 5%nat) /\
   (10000 <= n < 100000 -> String.length (get_percent_text x) = 6%nat)).
Proof.
  split.
  - intros H. unfold get_percent_text. now rewrite H.
  - intros H q Hq n.
    assert (E : get_percent_text x = fixed2 false q).
    { unfold get_percent_text. rewrite (leb_not_ltb _ _ H).
      destruct x as [s | s | | s m e]; try (simpl in Hq; discriminate).
      destruct s; [cbv in H; discriminate|].
      unfold format_4_2f. rewrite Hq. apply pad_left_long.
        rewrite fixed2_length. pose proof (numeral_nonempty (round_half_even (q * 100) / 100)).
        lia. }
    rewrite E. split; [reflexivity|]. rewrite fixed2_length. fold n.
    split; [reflexivity|].
    split; [|split]; intros Hn.
    + rewrite numeral_length_1; [reflexivity|]. apply Z.div_lt_upper_bound; lia.
    + rewrite numeral_length_2; [reflexivity|]. split.
      * apply Z.div_le_lower_bound; lia.
      * apply Z.div_lt_upper_bound; lia.
    + rewrite numeral_length_3; [reflexivity|]. split.
      * apply Z.div_le_lower_bound; lia.
      * apply Z.div_lt_upper_bound; lia.
Qed.

Lemma get_percent_text_cases_witness :
  get_percent_text (PyFloat.of_int 0) = "<0.01"%string /\
  String.length (get_percent_text (PyFloat.of_int 50)) = 5%nat.
Proof.
  split.
  - apply (proj1 (get_percent_text_cases (PyFloat.of_int 0))). reflexivity.
  - pose proof (proj2 (get_percent_text_cases (PyFloat.of_int 50)) eq_refl _ eq_refl) as H.
    cbv zeta in H. destruct H as [_ [_ [_ [H _]]]].
    apply H. vm_compute. split; [discriminate | reflexivity].
Defined.

(** C9 as stated fails: on the branch from [0.01] on, the texts of 1 and
    of 50 have different lengths. *)
Lemma percent_text_length_varies :
  PyFloat.leb PyFloat.c_0_01 (PyFloat.of_int 1) = true /\
  PyFloat.leb PyFloat.c_0_01 (PyFloat.of_int 50) = true /\
  get_percent_text (PyFloat.of_int 1) = "1.00"%string /\
  get_percent_text (PyFloat.of_int 50) = "50.00"%string /\
  String.length (get_percent_text (PyFloat.of_int 1)) <>
  String.length (get_percent_text (PyFloat.of_int 50)).
Proof. repeat split; try reflexivity. vm_compute. discriminate. Qed.

(** ** Compositing *)


Lemma classified_false_iff (phase_index mask_index : Z) :
  classified phase_index mask_index = false <-> mask_index = 0 \/ phase_index = 0.
Proof.
  unfold classified. rewrite andb_false_iff, !negb_false_iff, !Z.eqb_eq. tauto.
Qed.

Lemma pixel_step_unclassified (f : field) (x y p mk : Z) (st : state) :
  classified p mk = false -> pixel_step f x y p mk st = Ok st.
Proof. intros H. unfold pixel_step. now rewrite H. Qed.

(** What a classified pixel does when it goes through. *)
Lemma pixel_step_classified (f : field) (x y p mk : Z) (st st' : state) :
  classified p mk = true ->
  pixel_step f x y p mk st = Ok st' ->
  exists fx fy e,
    field_x f = Some fx /\ field_y f = Some fy /\
    PyDict.lookup p (phase_map st) = Ok e /\
    canvas_put (png st) (x + fx) (y + fy) (entry_colour e) = Ok (png st') /\
    PyDict.update p bump (phase_map st) = Ok (phase_map st') /\
    PyDict.update p bump (field_phase_map st) = Ok (field_phase_map st') /\
    classified_pixel_count st' = classified_pixel_count st + 1 /\
    thumbnail_x_min st' = Z.min (thumbnail_x_min st) (x + fx) /\
    thumbnail_x_max st' = Z.max (thumbnail_x_max st) (x + fx) /\
    thumbnail_y_min st' = Z.min (thumbnail_y_min st) (y + fy) /\
    thumbnail_y_max st' = Z.max (thumbnail_y_max st) (y + fy) /\
    occurrences st' = occurrences st.
Proof.
  intros Hc H. unfold pixel_step in H. rewrite Hc in H.
  destruct (PyDict.lookup p (phase_map st)) as [e|err] eqn:El; simpl in H; [|discriminate].
  destruct (field_x f) as [fx|]; [|discriminate].
  destruct (field_y f) as [fy|]; [|discriminate].
  destruct (canvas_put (png st) (x + fx) (y + fy) (entry_colour e)) as [cv|err] eqn:Ep;
    simpl in H; [|discriminate].
  destruct (PyDict.update p bump (phase_map st)) as [pm'|err] eqn:Eu; simpl in H; [|discriminate].
  destruct (PyDict.update p bump (field_phase_map st)) as [fpm'|err] eqn:Ef;
    simpl in H; [|discriminate].
  inversion H; subst; simpl. exists fx, fy, e.
  repeat split; first [assumption | reflexivity].
Qed.


(** Loops in the error monad carry a reflexive, transitive relation
    between the state before and the state after. *)
Lemma for_each_related {A S : Type} (R : S -> S -> Prop)
    (body : A -> S -> result S) (l : list A) :
  (forall s, R s s) ->
  (forall s1 s2 s3, R s1 s2 -> R s2 s3 -> R s1 s3) ->
  (forall a s s', In a l -> body a s = Ok s' -> R s s') ->
  forall s s', for_each l body s = Ok s' -> R s s'.
Proof.
  intros Hrefl Htrans. induction l as [|a rest IH]; intros Hb s s' H; simpl in H.
  - inversion H; subst. apply Hrefl.
  - destruct (body a s) as [s1|e] eqn:E; simpl in H; [|discriminate].
    apply Htrans with s1.
    + apply (Hb a); [now left | exact E].
    + apply IH; [|exact H]. intros a' t t' Hin. apply Hb. now right.
Qed.

Lemma sum_histogram_perm (l l' : list (Z * phase_entry)) :
  Permutation l l' -> sum_histogram l = sum_histogram l'.
Proof.
  induction 1; simpl; try lia.
Qed.

Lemma sum_histogram_nonzero (l : list (Z * phase_entry)) :
  sum_histogram (filter (fun kv => nonzero (snd kv)) l) = sum_histogram l.
Proof.
  induction l as [|[k e] rest IH]; simpl; [reflexivity|].
  unfold nonzero at 1. simpl.
  destruct (histogram e =? 0) eqn:E; simpl.
  - apply Z.eqb_eq in E. lia.
  - lia.
Qed.

Lemma sum_histogram_zero (l : list (Z * phase_entry)) :
  Forall (fun kv => histogram (snd kv) = 0) l -> sum_histogram l = 0.
Proof. induction 1 as [|kv rest H _ IH]; simpl; lia. Qed.

Lemma update_bump_sum (k : Z) (d d' : PyDict.t phase_entry) :
  PyDict.update k bump d = Ok d' -> sum_histogram d' = sum_histogram d + 1.
Proof.
  revert d'. induction d as [|[k' e] rest IH]; simpl; intros d' H; [discriminate|].
  destruct (k =? k').
  - inversion H; subst; simpl. lia.
  - destruct (PyDict.update k bump rest) as [r|err]; simpl in H; [|discriminate].
    inversion H; subst; simpl. rewrite (IH r eq_refl). lia.
Qed.

Lemma filter_none {A : Type} (p : A -> bool) (l : list A) :
  Forall (fun a => p a = false) l -> filter p l = [].
Proof. induction 1 as [|a rest H _ IH]; simpl; [reflexivity | now rewrite H]. Qed.

Lemma Forall_perm {A : Type} (P : A -> Prop) (l l' : list A) :
  Permutation l l' -> Forall P l -> Forall P l'.
Proof.
  intros Hp H. rewrite Forall_forall in *. intros a Hin.
  apply H. eapply Permutation_in; [symmetry; exact Hp | exact Hin].
Qed.

(** The rows of a dictionary: their counts add up to the dictionary's,
    and there are none when every count is zero. *)
Lemma rows_sum (d : PyDict.t phase_entry) :
  NoDup (PyDict.keys d) ->
  sum_histogram (sorted_by_histogram (PyDict.filter_values nonzero d)) = sum_histogram d.
Proof.
  intros H. unfold sorted_by_histogram.
  rewrite (sum_histogram_perm _ _ (stable_sort_perm _ _)).
  rewrite (sum_histogram_perm _ _ (items_perm _)).
  rewrite (sum_histogram_perm _ _ (filter_values_perm nonzero d H)).
  apply sum_histogram_nonzero.
Qed.

Lemma rows_empty (d : PyDict.t phase_entry) :
  Forall (fun kv => histogram (snd kv) = 0) d ->
  sorted_by_histogram (PyDict.filter_values nonzero d) = [].
Proof.
  intros H. unfold sorted_by_histogram, PyDict.filter_values.
  rewrite filter_none; [reflexivity|].
  apply (Forall_perm _ d); [symmetry; apply items_perm|].
  eapply Forall_impl; [|exact H]. intros kv E. unfold nonzero. rewrite E. reflexivity.
Qed.

Lemma pixels_grow_refl (s : state) : pixels_grow s s.
Proof. unfold pixels_grow. repeat split; try reflexivity; lia. Qed.

Lemma pixels_grow_trans (s1 s2 s3 : state) :
  pixels_grow s1 s2 -> pixels_grow s2 s3 -> pixels_grow s1 s3.
Proof.
  unfold pixels_grow.
  intros (A1 & A2 & A3 & A4 & A5 & A6 & A7) (B1 & B2 & B3 & B4 & B5 & B6 & B7).
  repeat split; try congruence; try lia.
  intros E. assert (E2 : classified_pixel_count s3 = classified_pixel_count s2) by lia.
  rewrite (B7 E2). apply A7. lia.
Qed.

Lemma pixel_step_grows (f : field) (x y p mk : Z) (s s' : state) :
  pixel_step f x y p mk s = Ok s' -> pixels_grow s s'.
Proof.
  intros H. destruct (classified p mk) eqn:Hc.
  - destruct (pixel_step_classified f x y p mk s s' Hc H)
      as (fx & fy & e & _ & _ & _ & _ & Hpm & Hfpm & Hcount & _ & _ & _ & _ & Hocc).
    unfold pixels_grow. rewrite Hcount.
    rewrite (update_bump_sum _ _ _ Hpm), (update_bump_sum _ _ _ Hfpm).
    rewrite (update_keys _ _ _ _ Hpm), (update_keys _ _ _ _ Hfpm).
    repeat split; try assumption; try lia.
  - rewrite (pixel_step_unclassified f x y p mk s Hc) in H.
    inversion H; subst. apply pixels_grow_refl.
Qed.

Lemma visit_pixel_grows (tl : tile) (f : field) (y x : Z) (s s' : state) :
  visit_pixel tl f y x s = Ok s' -> pixels_grow s s'.
Proof.
  unfold visit_pixel. intros H.
  destruct (raster_get (tile_phases tl) x y) as [p|e]; simpl in H; [|discriminate].
  destruct (raster_get (tile_mask tl) x y) as [mk|e]; simpl in H; [|discriminate].
  eapply pixel_step_grows; exact H.
Qed.

Lemma field_pixels_grows (m : measurement) (tl : tile) (f : field) (s s' : state) :
  field_pixels m tl f s = Ok s' -> pixels_grow s s'.
Proof.
  unfold field_pixels.
  apply (for_each_related pixels_grow); auto using pixels_grow_refl.
  - exact pixels_grow_trans.
  - intros y t t' _.
    apply (for_each_related pixels_grow); auto using pixels_grow_refl.
    + exact pixels_grow_trans.
    + intros x u u' _. apply visit_pixel_grows.
Qed.

Lemma fields_grow_refl (s : state) : fields_grow s s.
Proof. unfold fields_grow. repeat split; try reflexivity; lia. Qed.

Lemma fields_grow_trans (s1 s2 s3 : state) :
  fields_grow s1 s2 -> fields_grow s2 s3 -> fields_grow s1 s3.
Proof.
  unfold fields_grow.
  intros (A1 & A2 & A3 & A4 & A5) (B1 & B2 & B3 & B4 & B5).
  split; [lia|]. split; [lia|]. split; [lia|]. split; [congruence|].
  intros E.
  assert (E2 : classified_pixel_count s3 = classified_pixel_count s2) by lia.
  assert (E1 : classified_pixel_count s2 = classified_pixel_count s1) by lia.
  destruct (A5 E1) as (? & ? & ? & ? & ? & ? & ?).
  destruct (B5 E2) as (? & ? & ? & ? & ? & ? & ?).
  repeat split; congruence.
Qed.

Lemma sum_occurrences_app (o : list (string * list (Z * phase_entry)))
    (row : string * list (Z * phase_entry)) :
  sum_occurrences (o ++ [row]) = sum_occurrences o + sum_histogram (snd row).
Proof. induction o as [|r rest IH]; simpl; [lia | rewrite IH; lia]. Qed.

Lemma field_step_grows (m : measurement) (tiles : string -> tile)
    (empty_phase_map : PyDict.t phase_entry) (f : field) (s s' : state) :
  NoDup (PyDict.keys empty_phase_map) ->
  Forall (fun kv => histogram (snd kv) = 0) empty_phase_map ->
  field_step m tiles empty_phase_map f s = Ok s' -> fields_grow s s'.
Proof.
  intros Hnd Hz H. unfold field_step in H.
  set (s0 := with_field_phase_map s (PyDict.deepcopy empty_phase_map)) in H.
  destruct (field_pixels m (tiles (field_name f)) f s0) as [s1|e] eqn:E; simpl in H; [|discriminate].
  apply field_pixels_grows in E.
  destruct E as (G1 & G2 & G3 & G4 & G5 & G6 & G7). simpl in G1, G2, G3, G4, G5, G6.
  assert (Hcopy : Permutation (PyDict.deepcopy empty_phase_map) empty_phase_map)
    by now apply deepcopy_perm.
  assert (Hzero : Forall (fun kv => histogram (snd kv) = 0) (PyDict.deepcopy empty_phase_map))
    by (apply (Forall_perm _ empty_phase_map); [now symmetry | exact Hz]).
  rewrite (sum_histogram_zero _ Hzero) in G3.
  assert (Hkeys : NoDup (PyDict.keys (field_phase_map s1))).
  { rewrite G6. eapply NoDup_keys_perm; [exact Hcopy | exact Hnd]. }
  pose proof (rows_sum (field_phase_map s1) Hkeys) as Hrows.
  set (rows := sorted_by_histogram (PyDict.filter_values nonzero (field_phase_map s1))) in *.
  assert (Hsame : classified_pixel_count s1 = classified_pixel_count s -> rows = []).
  { intros Ec. subst rows. rewrite (G7 Ec). simpl. now apply rows_empty. }
  assert (Hs1 : classified_pixel_count s1 = classified_pixel_count s ->
                png s1 = png s /\
                thumbnail_x_min s1 = thumbnail_x_min s /\ thumbnail_x_max s1 = thumbnail_x_max s /\
                thumbnail_y_min s1 = thumbnail_y_min s /\ thumbnail_y_max s1 = thumbnail_y_max s /\
                phase_map s1 = phase_map s /\ occurrences s1 = occurrences s).
  { intros Ec. rewrite (G7 Ec). simpl. repeat split; reflexivity. }
  unfold fields_grow.
  destruct rows as [|r rows'] eqn:Er; inversion H; subst s'; simpl.
  - simpl in Hrows.
    split; [exact G1|]. split; [exact G2|]. split; [rewrite G4; lia|].
    split; [exact G5 | exact Hs1].
  - rewrite sum_occurrences_app. simpl snd. rewrite G4.
    split; [lia|]. split; [lia|]. split; [lia|]. split; [exact G5|].
    intros Ec. specialize (Hsame Ec). discriminate.
Qed.

Lemma composite_grows (m : measurement) (tiles : string -> tile)
    (empty_phase_map : PyDict.t phase_entry) (fields : list field) (s s' : state) :
  NoDup (PyDict.keys empty_phase_map) ->
  Forall (fun kv => histogram (snd kv) = 0) empty_phase_map ->
  composite m tiles empty_phase_map fields s = Ok s' -> fields_grow s s'.
Proof.
  intros Hnd Hz. unfold composite.
  apply (for_each_related fields_grow); auto using fields_grow_refl.
  - exact fields_grow_trans.
  - intros f t t' _. now apply field_step_grows.
Qed.

(** The state after the loop over the fields, unfolded from the script. *)
Lemma composited_inv (inp : input) (lay : layout) (fields : list field) (st : state) :
  composited inp = Ok (lay, fields, st) ->
  let pm := snd (phase_loop (in_getsize inp) (in_phases inp)) in
  exists diameter spacing,
    diameter_px (in_measurement inp) = Ok diameter /\
    layout_of (in_getsize inp) diameter
              (fst (phase_loop (in_getsize inp) (in_phases inp))) = Ok lay /\
    pixel_spacing (in_measurement inp) = Ok spacing /\
    fields_loop {| g_measurement := in_measurement inp; g_diameter_px := diameter;
                   g_origin := origin diameter; g_pixel_spacing := spacing |}
                (in_fields inp) [] = Ok fields /\
    composite (in_measurement inp) (in_tiles inp) (PyDict.deepcopy pm) fields
              (initial_state (canvas_size lay) pm) = Ok st.
Proof.
  unfold composited. destruct (phase_loop (in_getsize inp) (in_phases inp)) as [lw pm0].
  intros H. simpl.
  destruct (diameter_px (in_measurement inp)) as [d|e]; simpl in H; [|discriminate].
  destruct (layout_of (in_getsize inp) d lw) as [l|e] eqn:El; simpl in H; [|discriminate].
  destruct (pixel_spacing (in_measurement inp)) as [ps|e]; simpl in H; [|discriminate].
  destruct (fields_loop _ (in_fields inp) []) as [fs|e] eqn:Ef; simpl in H; [|discriminate].
  destruct (composite _ _ _ fs _) as [s|e] eqn:E; simpl in H; [|discriminate].
  inversion H; subst. exists d, ps. repeat split; first [reflexivity | assumption].
Qed.

Lemma composited_grows (inp : input) (lay : layout) (fields : list field) (st : state) :
  composited inp = Ok (lay, fields, st) ->
  fields_grow (initial_state (canvas_size lay)
                 (snd (phase_loop (in_getsize inp) (in_phases inp)))) st.
Proof.
  intros H. destruct (composited_inv inp lay fields st H) as (d & ps & _ & _ & _ & _ & Hc).
  destruct (phase_loop_wf (in_getsize inp) (in_phases inp)) as [Hnd Hz].
  eapply composite_grows; [| |exact Hc].
  - eapply NoDup_keys_perm; [apply deepcopy_perm; exact Hnd | exact Hnd].
  - apply (Forall_perm _ (snd (phase_loop (in_getsize inp) (in_phases inp)))).
    + symmetry. now apply deepcopy_perm.
    + exact Hz.
Qed.

(** C10.  After the loop over the fields the total equals the sum of
    the global histogram and the sum of the counts written out field by
    field; every classified pixel adds one to the total, to the counter
    of its phase in the global map and to the counter of its phase in
    the field's map, and leaves every other counter alone. *)
Theorem histogram_totals
    (inp : input) (lay : layout) (fields : list field) (st : state) :
  composited inp = Ok (lay, fields, st) ->
  classified_pixel_count st = sum_histogram (phase_map st) /\
  classified_pixel_count st = sum_occurrences (occurrences st) /\
  (forall f x y p mk s s',
     classified p mk = true -> pixel_step f x y p mk s = Ok s' ->
     classified_pixel_count s' = classified_pixel_count s + 1 /\
     sum_histogram (phase_map s') = sum_histogram (phase_map s) + 1 /\
     sum_histogram (field_phase_map s') = sum_histogram (field_phase_map s) + 1 /\
     PyDict.get p (phase_map s') = option_map bump (PyDict.get p (phase_map s)) /\
     PyDict.get p (field_phase_map s') = option_map bump (PyDict.get p (field_phase_map s)) /\
     (forall k, k <> p ->
        PyDict.get k (phase_map s') = PyDict.get k (phase_map s) /\
        PyDict.get k (field_phase_map s') = PyDict.get k (field_phase_map s))).
Proof.
  intros H. pose proof (composited_grows inp lay fields st H) as (_ & G2 & G3 & _ & _).
  simpl in G2, G3.
  destruct (phase_loop_wf (in_getsize inp) (in_phases inp)) as [_ Hz].
  rewrite (sum_histogram_zero _ Hz) in G2.
  split; [lia|]. split; [lia|].
  intros f x y p mk s s' Hc Hs.
  destruct (pixel_step_classified f x y p mk s s' Hc Hs)
    as (fx & fy & e & _ & _ & _ & _ & Hpm & Hfpm & Hcount & _).
  destruct (update_get _ _ _ _ Hpm) as [P1 P2].
  destruct (update_get _ _ _ _ Hfpm) as [F1 F2].
  rewrite (update_bump_sum _ _ _ Hpm), (update_bump_sum _ _ _ Hfpm).
  repeat split; auto.
Qed.




(** ** Legend order *)

Section SortFacts.
Context {A : Type}.
Variable key : A -> Z.


Lemma insert_sorted_descending (x : A) (l : list A) :
  StronglySorted (fun a b => key b <= key a) l ->
  StronglySorted (fun a b => key b <= key a) (PyDict.insert_sorted (by_key_descending key) x l).
Proof.
  induction 1 as [|y rest Hs IH Hall]; simpl.
  - constructor; constructor.
  - unfold by_key_descending at 1. destruct (key x <? key y) eqn:E.
    + apply Z.ltb_lt in E. constructor; [exact IH|].
      apply (Forall_perm _ (x :: rest)).
      * symmetry. apply insert_sorted_perm.
      * constructor; [lia | exact Hall].
    + apply Z.ltb_ge in E. constructor; [now constructor|].
      constructor; [exact E|].
      eapply Forall_impl; [|exact Hall]. simpl. intros z Hz. lia.
Qed.

Lemma stable_sort_descending (l : list A) :
  StronglySorted (fun a b => key b <= key a) (PyDict.stable_sort (by_key_descending key) l).
Proof.
  induction l as [|x rest IH]; simpl; [constructor|].
  now apply insert_sorted_descending.
Qed.


End SortFacts.

Lemma In_get {V : Type} (d : PyDict.t V) (k : Z) (v : V) :
  NoDup (PyDict.keys d) -> (In (k, v) d <-> PyDict.get k d = Some v).
Proof.
  induction d as [|[k' v'] rest IH]; simpl; intros H.
  - split; [intros [] | discriminate].
  - inversion H as [|? ? Hnot Hrest]; subst.
    destruct (k =? k') eqn:E.
    + apply Z.eqb_eq in E. subst k'. split.
      * intros [Heq | Hin]; [now inversion Heq|].
        exfalso. apply Hnot. unfold PyDict.keys. apply in_map_iff. now exists (k, v).
      * intros Heq. inversion Heq. now left.
    + rewrite <- IH by assumption. split; [|tauto].
      intros [Heq | Hin]; [|exact Hin].
      inversion Heq; subst. rewrite Z.eqb_refl in E. discriminate.
Qed.


Lemma legend_phases_perm (pm : PyDict.t phase_entry) :
  NoDup (PyDict.keys pm) ->
  Permutation (legend_phases pm) (filter (fun kv => nonzero (snd kv)) pm).
Proof.
  intros H. unfold legend_phases, sorted_by_histogram.
  rewrite stable_sort_perm, items_perm. now apply filter_values_perm.
Qed.


(** ** Integers as floats *)

Lemma iter_xO_value (m k : positive) : Zpos (Pos.iter xO m k) = Zpos m * 2 ^ Zpos k.
Proof.
  induction k as [|k IH] using Pos.peano_ind.
  - simpl. lia.
  - rewrite Pos.iter_succ, Pos2Z.inj_succ, Z.pow_succ_r by lia.
    rewrite Pos2Z.inj_xO, IH. lia.
Qed.

Lemma iter_xO_digits (m k : positive) :
  digits2_pos (Pos.iter xO m k) = (digits2_pos m + k)%positive.
Proof.
  induction k as [|k IH] using Pos.peano_ind.
  - simpl. lia.
  - rewrite Pos.iter_succ. simpl. rewrite IH. lia.
Qed.

Lemma digits2_pos_bound (m : positive) : Zpos m < 2 ^ Zpos (digits2_pos m).
Proof.
  induction m as [m IH|m IH|]; simpl digits2_pos;
    rewrite ?Pos2Z.inj_succ, ?Z.pow_succ_r by lia; lia.
Qed.

Lemma digits2_pos_le (m : positive) (n : Z) :
  0 <= n -> Zpos m < 2 ^ n -> Zpos (digits2_pos m) <= n.
Proof.
  revert n. induction m as [m IH|m IH|]; intros n Hn H; simpl digits2_pos.
  - rewrite Pos2Z.inj_succ. assert (n <> 0) by (intros ->; simpl in H; lia).
    enough (Zpos (digits2_pos m) <= n - 1) by lia. apply IH; [lia|].
    replace n with (Z.succ (n - 1)) in H by lia. rewrite Z.pow_succ_r in H by lia. lia.
  - rewrite Pos2Z.inj_succ. assert (n <> 0) by (intros ->; simpl in H; lia).
    enough (Zpos (digits2_pos m) <= n - 1) by lia. apply IH; [lia|].
    replace n with (Z.succ (n - 1)) in H by lia. rewrite Z.pow_succ_r in H by lia. lia.
  - assert (n <> 0) by (intros ->; simpl in H; lia). lia.
Qed.

(** A mantissa of full width with an exponent in range is kept as it is. *)
Lemma binary_round_aux_full (s : bool) (mz : positive) (ez : Z) :
  Zpos (digits2_pos mz) = 53 -> -1074 <= ez <= 971 ->
  binary_round_aux PyFloat.prec PyFloat.emax s (Zpos mz) ez loc_Exact =
  S754_finite s mz ez.
Proof.
  intros Hd He.
  assert (Hshift : fexp PyFloat.prec PyFloat.emax (Zdigits2 (Zpos mz) + ez) - ez = 0).
  { unfold fexp, emin, PyFloat.prec, PyFloat.emax. simpl Zdigits2. rewrite Hd. lia. }
  unfold binary_round_aux, shr_fexp. rewrite Hshift.
  cbv beta iota delta [shr shr_record_of_loc loc_of_shr_record shr_m round_nearest_even].
  rewrite Hshift.
  cbv beta iota delta [shr shr_record_of_loc loc_of_shr_record shr_m round_nearest_even].
  unfold PyFloat.emax, PyFloat.prec.
  destruct (ez <=? 1024 - 53) eqn:E; [reflexivity|]. apply Z.leb_gt in E. lia.
Qed.

(** Below [2 ^ 53] in magnitude the conversion loses nothing. *)
Lemma of_int_exact (z : Z) :
  Z.abs z < 2 ^ 53 ->
  exists q, PyFloat.value (PyFloat.of_int z) = Some q /\ (q == inject_Z z)%Q.
Proof.
  intros Hz. destruct z as [|m|m]; [exists 0%Q; split; reflexivity| |].
  all: assert (Hd : Zpos (digits2_pos m) <= 53) by (apply digits2_pos_le; [lia | exact Hz]).
  all: unfold PyFloat.of_int, binary_normalize, binary_round.
  all: assert (Hf : fexp PyFloat.prec PyFloat.emax (Zpos (digits2_pos m) + 0)
                    = Zpos (digits2_pos m) - 53)
         by (unfold fexp, emin, PyFloat.prec, PyFloat.emax; lia).
  all: rewrite Hf; unfold shl_align.
  all: destruct (Zpos (digits2_pos m) - 53 - 0) as [|d|d] eqn:Ed; try lia.
  all: try (rewrite binary_round_aux_full by lia; simpl;
            eexists; split; [reflexivity | first [reflexivity | apply Qopp_comp; reflexivity]]).
  all: rewrite binary_round_aux_full
         by (rewrite ?iter_xO_digits; rewrite ?Pos2Z.inj_add; lia).
  all: assert (Ee : Zpos (digits2_pos m) - 53 = Zneg d) by lia.
  all: rewrite Ee; simpl; eexists; split; [reflexivity|].
  all: unfold Qeq, inject_Z; simpl; rewrite Pos.mul_1_r; f_equal; apply Pos2Z.inj.
  all: rewrite Pos2Z.inj_mul, Pos2Z.inj_pow; apply iter_xO_value.
Qed.

Lemma ceil_int_of_int (z : Z) :
  Z.abs z < 2 ^ 53 -> PyFloat.ceil_int (PyFloat.of_int z) = Ok z.
Proof.
  intros Hz. destruct (of_int_exact z Hz) as [q [Hq Eq]].
  unfold PyFloat.ceil_int.
  destruct (PyFloat.of_int z) as [s | s | | s m e]; try discriminate;
    rewrite Hq; f_equal; rewrite Eq; apply Qceiling_Z.
Qed.

(** C2, as the script does it.  The legend starts 30 pixels right of the
    classification region, the widest percentage is measured on
    ["<0.01"], and the canvas is as wide as the right edge of the
    percentage column.  That edge is measured from the classification
    width itself, not from [legend_start_x]: it lies 30 pixels left of
    the position the stated formula gives. *)
Theorem layout_percent_right_x (getsize : string -> Z) (diameter largest_name_width : Z) :
  Z.abs (diameter + 30) < 2 ^ 53 ->
  exists lay,
    layout_of getsize diameter largest_name_width = Ok lay /\
    legend_start_x lay = diameter + 30 /\
    max_numeric_width lay = getsize "<0.01"%string /\
    percent_right_x lay =
      diameter + legend_text_x_offset + largest_name_width + max_numeric_width lay
      + legend_line_height - font_size /\
    percent_right_x lay =
      percent_column_right_x_stated (legend_start_x lay) largest_name_width
                                    (max_numeric_width lay) - 30 /\
    canvas_size lay = (percent_right_x lay, diameter).
Proof.
  intros H. unfold layout_of. rewrite (ceil_int_of_int _ H). simpl.
  eexists. split; [reflexivity|]. simpl.
  unfold percent_column_right_x_stated. repeat split; lia.
Qed.

Lemma layout_percent_right_x_witness :
  exists lay,
    layout_of mono_getsize 8 84 = Ok lay /\
    legend_start_x lay = 8 + 30 /\
    max_numeric_width lay = mono_getsize "<0.01"%string /\
    percent_right_x lay =
      8 + legend_text_x_offset + 84 + max_numeric_width lay + legend_line_height - font_size /\
    percent_right_x lay =
      percent_column_right_x_stated (legend_start_x lay) 84 (max_numeric_width lay) - 30 /\
    canvas_size lay = (percent_right_x lay, 8).
Proof. apply (layout_percent_right_x mono_getsize 8 84). reflexivity. Defined.

(** C2 as stated fails: with a diameter of 8 and labels up to 84 pixels
    wide the column ends at 210, the stated formula gives 240. *)
Lemma percent_right_x_not_from_legend_start :
  layout_of mono_getsize 8 84 =
    Ok {| max_numeric_width := 70; legend_start_x := 38;
          percent_right_x := 210; canvas_size := (210, 8) |} /\
  percent_column_right_x_stated 38 84 70 = 240.
Proof. split; reflexivity. Qed.

(** ** The transform on sample data *)

Lemma fields_loop_physical_to_canvas_witness :
  Forall2 (fun n f =>
             field_name f = node_name n /\
             physical_to_canvas sample_geometry (node_x n) (node_y n)
             = Ok (field_x f, field_y f))
          [ {| node_name := "a"; node_x := one_and_a_half; node_y := PyFloat.of_int 2 |};
            {| node_name := "b"; node_x := PyFloat.of_int (-4); node_y := PyFloat.of_int 0 |} ]
          [ {| field_name := "a"; field_x := Some 2; field_y := Some 5 |};
            {| field_name := "b"; field_x := Some 5; field_y := Some 4 |} ].
Proof. apply (fields_loop_physical_to_canvas sample_geometry). reflexivity. Defined.


(** Away from ties an inexact addition breaks the relation as well:
    with one micrometre a pixel and the origin one pixel in, the largest
    float below one half goes to 1 and its mirror image to 2. *)
Example mirror_fails_when_inexact :
  let g := {| g_measurement := {| view_field_um := 1; image_width_px := 1;
                                  image_height_px := 1; sample_diameter_um := 2 |};
              g_diameter_px := 2; g_origin := origin 2;
              g_pixel_spacing := PyFloat.of_int 1 |} in
  physical_to_canvas g below_half (PyFloat.of_int 0) = Ok (Some 1, Some 1) /\
  physical_to_canvas g (PyFloat.neg below_half) (PyFloat.of_int 0) = Ok (Some 2, Some 1) /\
  PyFloat.round (SFdiv PyFloat.prec PyFloat.emax below_half (PyFloat.of_int 1)) = Some 0 /\
  shift_exact below_half 1 0 = false.
Proof. repeat split; reflexivity. Qed.


(** ** The diameter on sample data *)



(** The product of the two float operations is what is cut: one 49th
    times 49 is just below 1 in binary64, so the diameter is 0. *)
Example diameter_px_float_product :
  diameter_px {| view_field_um := 49; image_width_px := 49; image_height_px := 49;
                 sample_diameter_um := 1 |} = Ok 0.
Proof. reflexivity. Qed.

(** ** The catalogue on sample data *)

(** C5 as stated fails: two records with id 1 are accepted, the second
    replaces the first, and the run goes through. *)
Lemma duplicate_id_accepted :
  has_duplicate_id [quartz; albite_as_1] = true /\
  phase_loop mono_getsize [quartz; albite_as_1] = (84, [(1, entry_of_node albite_as_1)]) /\
  is_ok (run (sample_input [quartz; albite_as_1] masked_out_tile)) = true.
Proof. repeat split; reflexivity. Qed.

(** ** Runs on sample data *)



Lemma histogram_totals_witness :
  exists lay fields st,
    composited (sample_input [quartz; albite] two_phase_tile) = Ok (lay, fields, st) /\
    classified_pixel_count st = sum_histogram (phase_map st) /\
    classified_pixel_count st = sum_occurrences (occurrences st) /\
    classified_pixel_count st = 2.
Proof.
  destruct (composited (sample_input [quartz; albite] two_phase_tile))
    as [[[lay fields] st]|e] eqn:E; [|vm_compute in E; discriminate].
  exists lay, fields, st. split; [reflexivity|].
  destruct (histogram_totals _ lay fields st E) as (H1 & H2 & _).
  split; [exact H1|]. split; [exact H2|].
  vm_compute in E. inversion E; subst. reflexivity.
Defined.





(* ================================================================== *)
(** * Part III.  Further properties of the script                      *)
(* ================================================================== *)

(** ** Text attributes *)

Lemma clean_guid_app (a b : string) :
  clean_guid (a ++ b) = (clean_guid a ++ clean_guid b)%string.
Proof.
  induction a as [|c a IH]; simpl; [reflexivity|].
  destruct (guid_char c); simpl; now rewrite IH.
Qed.

(** X1.  Cleaning the measurement id keeps, in order, exactly the
    characters of the class: the opening bracket, [a] to [f] and the
    digits.  Capital letters go, so a GUID written in capitals loses its
    letters; cleaning twice changes nothing more; cleaning distributes
    over concatenation. *)
Theorem clean_guid_class (s : string) :
  Forall (fun c => guid_char c = true) (list_ascii_of_string (clean_guid s)) /\
  clean_guid (clean_guid s) = clean_guid s /\
  (String.length (clean_guid s) <= String.length s)%nat /\
  (Forall (fun c => guid_char c = true) (list_ascii_of_string s) <-> clean_guid s = s) /\
  (forall c, (65 <= nat_of_ascii c <= 90)%nat -> clean_guid (String c s) = clean_guid s) /\
  (forall t, clean_guid (s ++ t) = (clean_guid s ++ clean_guid t)%string).
Proof.
  assert (Hlen : forall t, (String.length (clean_guid t) <= String.length t)%nat).
  { induction t as [|c t IH]; simpl; [lia|]. destruct (guid_char c); simpl; lia. }
  split; [|split; [|split; [|split; [|split]]]].
  - induction s as [|c s IH]; simpl; [constructor|].
    destruct (guid_char c) eqn:E; simpl; [constructor; assumption | exact IH].
  - induction s as [|c s IH]; simpl; [reflexivity|].
    destruct (guid_char c) eqn:E; simpl; [rewrite E, IH; reflexivity | exact IH].
  - apply Hlen.
  - split.
    + induction s as [|c s IH]; simpl; intros H; [reflexivity|].
      inversion H as [|? ? Hc Hs]; subst. rewrite Hc. f_equal. now apply IH.
    + induction s as [|c s IH]; simpl; intros H; [constructor|].
      destruct (guid_char c) eqn:E.
      * inversion H as [H']. rewrite H'. constructor; [exact E | now apply IH].
      * exfalso. pose proof (Hlen s) as L. rewrite H in L. simpl in L. lia.
  - intros c Hc. simpl. unfold guid_char.
    destruct (nat_of_ascii c =? 91)%nat eqn:E1; [apply Nat.eqb_eq in E1; lia|].
    destruct ((97 <=? nat_of_ascii c) && (nat_of_ascii c <=? 102))%nat eqn:E2.
    { apply andb_true_iff in E2. destruct E2 as [E2 _]. apply Nat.leb_le in E2. lia. }
    destruct ((48 <=? nat_of_ascii c) && (nat_of_ascii c <=? 57))%nat eqn:E3.
    { apply andb_true_iff in E3. destruct E3 as [_ E3]. apply Nat.leb_le in E3. lia. }
    reflexivity.
  - intros t. apply clean_guid_app.
Qed.

Lemma clean_guid_class_witness :
  clean_guid (String "A" "3f-[0")%string = clean_guid "3f-[0"%string.
Proof.
  apply (proj1 (proj2 (proj2 (proj2 (proj2 (clean_guid_class "3f-[0"%string)))))).
  vm_compute. split; repeat constructor.
Defined.

(** X2.  The colour literal handed to the database has the length of
    the colour attribute, holds no hash sign, and differs from the
    attribute only where that has one: there it has an [x].  Applied to
    a hash sign followed by text without one, it replaces just the
    first character. *)
Theorem replace_hash_only_hashes (s : string) :
  String.length (replace_hash s) = String.length s /\
  ~ In "#"%char (list_ascii_of_string (replace_hash s)) /\
  (forall i, String.get i (replace_hash s) =
             option_map (fun c => if Ascii.eqb c "#" then "x"%char else c) (String.get i s)) /\
  (~ In "#"%char (list_ascii_of_string s) ->
   replace_hash s = s /\ replace_hash (String "#" s) = String "x" s).
Proof.
  split; [|split; [|split]].
  - induction s as [|c s IH]; simpl; [reflexivity | now rewrite IH].
  - induction s as [|c s IH]; simpl; [tauto|].
    intros [H | H]; [|tauto].
    destruct (Ascii.eqb c "#") eqn:E; [discriminate|].
    subst c. discriminate.
  - induction s as [|c s IH]; intros i; simpl; [reflexivity|].
    destruct i as [|i]; [reflexivity | apply IH].
  - intros H.
    assert (E : replace_hash s = s).
    { induction s as [|c s IH]; simpl; [reflexivity|].
      simpl in H. destruct (Ascii.eqb c "#") eqn:E.
      - apply Ascii.eqb_eq in E. subst c. tauto.
      - f_equal. apply IH. tauto. }
    split; [exact E|]. simpl. now rewrite E.
Qed.

Lemma replace_hash_only_hashes_witness :
  replace_hash "ff00aa" = "ff00aa"%string /\ replace_hash "#ff00aa" = "xff00aa"%string.
Proof.
  apply (proj2 (proj2 (proj2 (replace_hash_only_hashes "ff00aa")))).
  vm_compute. intuition discriminate.
Defined.

(** ** Colour attributes *)

Lemma hex_value_hex_char (upper : bool) (d : Z) :
  0 <= d < 16 -> hex_value (hex_char upper d) = Some d.
Proof.
  intros H.
  assert (C : d = 0 \/ d = 1 \/ d = 2 \/ d = 3 \/ d = 4 \/ d = 5 \/ d = 6 \/ d = 7 \/
              d = 8 \/ d = 9 \/ d = 10 \/ d = 11 \/ d = 12 \/ d = 13 \/ d = 14 \/ d = 15)
    by lia.
  destruct upper; repeat (destruct C as [-> | C]; [reflexivity|]); subst; reflexivity.
Qed.

(** X3.  A colour attribute made of any first character, six
    hexadecimal digits in either case and any further text parses to
    the three bytes the digits spell: the first character is not looked
    at, and neither is anything after the seventh. *)
Theorem parse_colour_hex_digits
    (c : ascii) (u1 u2 v1 v2 w1 w2 : Z) (a1 a2 b1 b2 c1 c2 : bool) (rest : string) :
  0 <= u1 < 16 -> 0 <= u2 < 16 -> 0 <= v1 < 16 -> 0 <= v2 < 16 ->
  0 <= w1 < 16 -> 0 <= w2 < 16 ->
  parse_colour
    (String c (String (hex_char a1 u1) (String (hex_char a2 u2)
       (String (hex_char b1 v1) (String (hex_char b2 v2)
         (String (hex_char c1 w1) (String (hex_char c2 w2) rest)))))))
  = Ok (16 * u1 + u2, 16 * v1 + v2, 16 * w1 + w2).
Proof.
  intros H1 H2 H3 H4 H5 H6.
  unfold parse_colour, slice_pair. cbn [substring]. unfold int16.
  rewrite !hex_value_hex_char by assumption. reflexivity.
Qed.

Lemma parse_colour_hex_digits_witness :
  parse_colour "#fF00a9 and more" = Ok (255, 0, 169).
Proof.
  apply (parse_colour_hex_digits "#" 15 15 0 0 10 9 false true false false false false
           " and more"); lia.
Defined.

Lemma int16_bounds (t : pair_slice) (v : Z) : int16 t = Ok v -> -15 <= v <= 255.
Proof.
  assert (Hb : forall a u, hex_value a = Some u -> 0 <= u <= 15).
  { intros a u. unfold hex_value.
    destruct ((48 <=? nat_of_ascii a) && (nat_of_ascii a <=? 57))%nat eqn:E1.
    { apply andb_true_iff in E1. destruct E1 as [A B].
      apply Nat.leb_le in A, B. intros H; inversion H; lia. }
    destruct ((97 <=? nat_of_ascii a) && (nat_of_ascii a <=? 102))%nat eqn:E2.
    { apply andb_true_iff in E2. destruct E2 as [A B].
      apply Nat.leb_le in A, B. intros H; inversion H; lia. }
    destruct ((65 <=? nat_of_ascii a) && (nat_of_ascii a <=? 70))%nat eqn:E3.
    { apply andb_true_iff in E3. destruct E3 as [A B].
      apply Nat.leb_le in A, B. intros H; inversion H; lia. }
    discriminate. }
  destruct t as [|a|a b]; unfold int16; [discriminate| |].
  - destruct (hex_value a) as [u|] eqn:E; [|discriminate].
    intros H. assert (u = v) by congruence. pose proof (Hb a u E). lia.
  - destruct (hex_value a) as [u|] eqn:Ea, (hex_value b) as [w|] eqn:Eb;
      try discriminate.
    + intros H. assert (16 * u + w = v) by congruence.
      pose proof (Hb a u Ea). pose proof (Hb b w Eb). lia.
    + destruct (is_space b); [|discriminate].
      intros H. assert (u = v) by congruence. pose proof (Hb a u Ea). lia.
    + pose proof (Hb b w Eb).
      destruct (is_space a); [intros H'; assert (w = v) by congruence; lia|].
      destruct (Ascii.eqb a "+"); [intros H'; assert (w = v) by congruence; lia|].
      destruct (Ascii.eqb a "-"); [intros H'; assert (- w = v) by congruence; lia
                                  | discriminate].
Qed.

(** X4.  A colour attribute of fewer than six characters is a
    [ValueError]; a colour that parses has every component between -15
    and 255, the negative ones coming from a minus sign in front of a
    single digit. *)
Theorem parse_colour_short_or_bounded (colour_str : string) :
  ((String.length colour_str < 6)%nat -> parse_colour colour_str = Err ValueError) /\
  (forall r g b, parse_colour colour_str = Ok (r, g, b) ->
     -15 <= r <= 255 /\ -15 <= g <= 255 /\ -15 <= b <= 255).
Proof.
  split.
  - intros H. unfold parse_colour.
    assert (E : slice_pair colour_str 5 = NoChar).
    { destruct colour_str as [|c0 [|c1 [|c2 [|c3 [|c4 [|c5 s]]]]]]; try reflexivity.
      simpl in H. lia. }
    rewrite E.
    destruct (int16 (slice_pair colour_str 1)) as [r|[]] eqn:E1; simpl;
      try reflexivity;
      try (destruct colour_str as [|c0 [|c1 [|c2 s]]]; simpl in E1;
           repeat match type of E1 with
                  | context [match ?x with _ => _ end] => destruct x
                  end; discriminate).
    destruct (int16 (slice_pair colour_str 3)) as [g|[]] eqn:E3; simpl;
      try reflexivity;
      try (destruct colour_str as [|c0 [|c1 [|c2 [|c3 [|c4 s]]]]]; simpl in E3;
           repeat match type of E3 with
                  | context [match ?x with _ => _ end] => destruct x
                  end; discriminate).
  - intros r g b H. unfold parse_colour in H.
    destruct (int16 (slice_pair colour_str 1)) as [r'|] eqn:E1; simpl in H; [|discriminate].
    destruct (int16 (slice_pair colour_str 3)) as [g'|] eqn:E3; simpl in H; [|discriminate].
    destruct (int16 (slice_pair colour_str 5)) as [b'|] eqn:E5; simpl in H; [|discriminate].
    inversion H; subst.
    apply int16_bounds in E1, E3, E5. tauto.
Qed.

Lemma parse_colour_short_or_bounded_witness :
  parse_colour "#ff00" = Err ValueError /\ -15 <= -1 <= 255.
Proof.
  split.
  - apply (proj1 (parse_colour_short_or_bounded "#ff00")). simpl. lia.
  - apply (proj2 (parse_colour_short_or_bounded "# f-1+2") 15 (-1) 2 eq_refl).
Defined.

(** ** What the compositing keeps *)

Lemma In_range (n x : Z) : In x (range n) <-> 0 <= x < n.
Proof.
  unfold range. rewrite in_map_iff. split.
  - intros [k [<- Hk]]. apply in_seq in Hk. lia.
  - intros H. exists (Z.to_nat x). split; [lia|]. apply in_seq. lia.
Qed.



Lemma for_each_invariant {A S : Type} (P : S -> Prop)
    (body : A -> S -> result S) (l : list A) :
  (forall a s s', P s -> body a s = Ok s' -> P s') ->
  forall s s', P s -> for_each l body s = Ok s' -> P s'.
Proof.
  intros Hb s s' Hp H.
  refine (for_each_related (fun s0 s1 => P s0 -> P s1) body l _ _ _ s s' H Hp); auto.
  intros a t t' _ E Ht. eapply Hb; eauto.
Qed.







Lemma visit_pixel_inv (tl : tile) (f : field) (y x : Z) (s s' : state) :
  visit_pixel tl f y x s = Ok s' ->
  exists p mk,
    raster_get (tile_phases tl) x y = Ok p /\
    raster_get (tile_mask tl) x y = Ok mk /\
    pixel_step f x y p mk s = Ok s'.
Proof.
  unfold visit_pixel. intros H.
  destruct (raster_get (tile_phases tl) x y) as [p|e]; simpl in H; [|discriminate].
  destruct (raster_get (tile_mask tl) x y) as [mk|e]; simpl in H; [|discriminate].
  now exists p, mk.
Qed.




Lemma field_step_inv (m : measurement) (tiles : string -> tile)
    (epm : PyDict.t phase_entry) (f : field) (s s' : state) :
  field_step m tiles epm f s = Ok s' ->
  exists s1,
    field_pixels m (tiles (field_name f)) f
                 (with_field_phase_map s (PyDict.deepcopy epm)) = Ok s1 /\
    (s' = s1 \/
     s' = with_occurrence s1
            (field_name f,
             sorted_by_histogram (PyDict.filter_values nonzero (field_phase_map s1))) /\
     sorted_by_histogram (PyDict.filter_values nonzero (field_phase_map s1)) <> []).
Proof.
  unfold field_step. intros H.
  destruct (field_pixels m (tiles (field_name f)) f _) as [s1|e] eqn:E; simpl in H;
    [|discriminate].
  exists s1. split; [reflexivity|].
  destruct (sorted_by_histogram _) as [|r rows] eqn:Er; inversion H; subst.
  - now left.
  - right. split; [reflexivity | discriminate].
Qed.



Lemma catalogue_entry (getsize : string -> Z) (nodes : list phase_node)
    (k : Z) (e : phase_entry) :
  PyDict.get k (snd (phase_loop getsize nodes)) = Some e ->
  exists n, In n nodes /\ pn_background n = false /\ pn_id n = k /\ e = entry_of_node n.
Proof.
  unfold phase_loop. rewrite phase_loop_get_acc. simpl.
  destruct (last_with_id k nodes) as [n|] eqn:E; [|discriminate].
  intros H. inversion H; subst. exists n.
  unfold last_with_id in E. apply find_some in E. destruct E as [Hin Hp].
  apply andb_true_iff in Hp. destruct Hp as [Hb Hid].
  apply negb_true_iff in Hb. apply Z.eqb_eq in Hid.
  split; [now apply in_rev|]. auto.
Qed.



(** ** Bounding box and colours *)












(** ** The legend loop and the end of the run *)



(** X9.  The legend loop draws one row for every entry, in order: row
    [i] sits [i] line heights below the first, shows the entry's colour
    and name, starts its name at [legend_start_x + legend_text_x_offset]
    and ends its percentage text exactly at [percent_right_x].  With
    entries to draw and a count of zero it divides by zero. *)
Theorem legend_rows_layout (getsize : string -> Z) (lay : layout) (count : Z)
    (entries : list (Z * phase_entry)) (y0 : Z) (rows : list legend_row) :
  legend_loop getsize lay count entries y0 = Ok rows ->
  List.length rows = List.length entries /\
  (entries <> [] -> PyFloat.is_zero (PyFloat.of_int count) = false) /\
  forall i row,
    nth_error rows i = Some row ->
    row_y row = y0 + Z.of_nat i * legend_line_height /\
    row_name_x row = legend_start_x lay + legend_text_x_offset /\
    row_text_x row + getsize (row_text row) = percent_right_x lay /\
    exists id e,
      nth_error entries i = Some (id, e) /\
      row_id row = id /\ row_fill row = entry_colour e /\ row_name row = mineral_name e.
Proof.
  revert y0 rows. induction entries as [|[id e] rest IH]; intros y0 rows H; simpl in H.
  - inversion H; subst. split; [reflexivity|]. split; [congruence|].
    intros [|i] row Hn; discriminate.
  - unfold PyFloat.truediv in H.
    destruct (PyFloat.is_zero (PyFloat.of_int count)) eqn:Hz; [discriminate|].
    simpl in H.
    destruct (legend_loop getsize lay count rest (y0 + legend_line_height)) as [rs|err] eqn:E;
      simpl in H; [|discriminate].
    inversion H; subst rows. clear H.
    destruct (IH _ _ E) as (L & _ & N).
    split; [simpl; now rewrite L|]. split; [reflexivity|].
    intros [|i] row Hn; simpl in Hn.
    + inversion Hn; subst row. simpl. split; [lia|]. split; [reflexivity|].
      split; [lia|]. exists id, e. auto.
    + destruct (N i row Hn) as (A & B & C & D).
      split; [lia|]. split; [exact B|]. split; [exact C | exact D].
Qed.

Lemma legend_rows_layout_witness :
  match legend_loop mono_getsize
          {| max_numeric_width := 70; legend_start_x := 38;
             percent_right_x := 210; canvas_size := (210, 8) |}
          4 [(8, bump (bump (bump (entry_of_node albite)))); (1, bump (entry_of_node quartz))] 0
  with
  | Ok rows => List.length rows = 2%nat
  | Err _ => False
  end.
Proof.
  destruct (legend_loop _ _ _ _ _) as [rows|err] eqn:E; [|vm_compute in E; discriminate].
  exact (proj1 (legend_rows_layout _ _ _ _ _ _ E)).
Defined.



(** X11.  The legend accounts for every classified pixel: the counts of
    its phases add up to the total. *)
Theorem legend_counts_add_up
    (inp : input) (lay : layout) (fields : list field) (st : state) :
  composited inp = Ok (lay, fields, st) ->
  sum_histogram (legend_phases (phase_map st)) = classified_pixel_count st.
Proof.
  intros H.
  pose proof (composited_grows inp lay fields st H) as (_ & G2 & _ & Hk & _).
  simpl in G2, Hk.
  destruct (phase_loop_wf (in_getsize inp) (in_phases inp)) as [Hnd Hz].
  rewrite (sum_histogram_zero _ Hz) in G2.
  unfold legend_phases. rewrite rows_sum; [lia|]. now rewrite Hk.
Qed.

Lemma legend_counts_add_up_witness :
  exists lay fields st,
    composited (sample_input [quartz; albite] two_phase_tile) = Ok (lay, fields, st) /\
    sum_histogram (legend_phases (phase_map st)) = 2.
Proof.
  destruct (composited (sample_input [quartz; albite] two_phase_tile))
    as [[[lay fields] st]|e] eqn:E; [|vm_compute in E; discriminate].
  exists lay, fields, st. split; [reflexivity|].
  rewrite (legend_counts_add_up _ lay fields st E).
  vm_compute in E. inversion E; subst. reflexivity.
Defined.

(** ** The catalogue *)

Lemma In_keys_get {V : Type} (d : PyDict.t V) (k : Z) :
  In k (PyDict.keys d) <-> exists v, PyDict.get k d = Some v.
Proof.
  induction d as [|[k' v'] rest IH]; simpl.
  - split; [intros [] | intros [v H]; discriminate].
  - destruct (k =? k') eqn:E.
    + apply Z.eqb_eq in E. subst. split; [intros _; now exists v' | now left].
    + rewrite IH. split; [intros [-> | H]; [rewrite Z.eqb_refl in E; discriminate | exact H]
                         | now right].
Qed.

(** X12.  The catalogue has an entry for an id exactly when some record
    that is not background carries the id; background records never get
    in.  No id is listed twice and every histogram starts at zero. *)
Theorem catalogue_keys (getsize : string -> Z) (nodes : list phase_node) :
  (forall k, In k (PyDict.keys (snd (phase_loop getsize nodes))) <->
             exists n, In n nodes /\ pn_background n = false /\ pn_id n = k) /\
  NoDup (PyDict.keys (snd (phase_loop getsize nodes))) /\
  Forall (fun kv => histogram (snd kv) = 0) (snd (phase_loop getsize nodes)).
Proof.
  split; [|apply phase_loop_wf].
  intros k. rewrite In_keys_get. split.
  - intros [e He]. destruct (catalogue_entry _ _ _ _ He) as (n & A & B & C & _).
    now exists n.
  - intros (n & Hin & Hb & Hid).
    unfold phase_loop. rewrite phase_loop_get_acc. simpl.
    destruct (last_with_id k nodes) as [n'|] eqn:E; [now eexists|].
    exfalso. unfold last_with_id in E.
    apply in_rev in Hin. pose proof (find_none _ _ E n Hin) as F. simpl in F.
    rewrite Hb, Hid, Z.eqb_refl in F. discriminate.
Qed.

Lemma phase_loop_width_acc (getsize : string -> Z) (nodes : list phase_node) :
  forall acc,
  let w := fst (fold_left (phase_step getsize) nodes acc) in
  fst acc <= w /\
  (forall n, In n nodes -> pn_background n = false -> getsize (pn_name n) <= w) /\
  (w = fst acc \/
   exists n, In n nodes /\ pn_background n = false /\ getsize (pn_name n) = w).
Proof.
  induction nodes as [|n rest IH]; intros acc; simpl.
  - split; [lia|]. split; [intros n []|]. now left.
  - destruct (IH (phase_step getsize acc n)) as (A & B & C).
    set (w := fst (fold_left (phase_step getsize) rest (phase_step getsize acc n))) in *.
    assert (S : fst (phase_step getsize acc n) =
                if pn_background n then fst acc
                else Z.max (fst acc) (getsize (pn_name n))).
    { unfold phase_step. destruct (pn_background n); reflexivity. }
    rewrite S in A, C.
    split; [|split].
    + destruct (pn_background n); lia.
    + intros n' [<- | Hin] Hb; [|now apply B].
      rewrite Hb in A. lia.
    + destruct C as [C | (n' & Hin & Hb & Hw)].
      * destruct (pn_background n) eqn:Hb; [now left|].
        destruct (Z.max_spec (fst acc) (getsize (pn_name n))) as [[_ E] | [_ E]];
          rewrite E in C.
        -- right. exists n. split; [now left|]. split; [exact Hb | now symmetry].
        -- now left.
      * right. exists n'. split; [now right|]. tauto.
Qed.

(** X13.  [largest_name_width] is the width of the widest name among
    the records that are not background, and zero when there is none or
    all their widths are negative: no such name is wider, and a value
    above zero is the width of one of them. *)
Theorem largest_name_width_is_max (getsize : string -> Z) (nodes : list phase_node) :
  let w := fst (phase_loop getsize nodes) in
  0 <= w /\
  (forall n, In n nodes -> pn_background n = false -> getsize (pn_name n) <= w) /\
  (w = 0 \/ exists n, In n nodes /\ pn_background n = false /\ getsize (pn_name n) = w).
Proof. apply (phase_loop_width_acc getsize nodes (0, [])). Qed.

(** ** Division by zero *)





(** ** The fields loop *)




(** ** Rows written out for the fields *)

Lemma update_bump_nonneg (p : Z) (d d' : PyDict.t phase_entry) :
  Forall (fun kv => 0 <= histogram (snd kv)) d ->
  PyDict.update p bump d = Ok d' ->
  Forall (fun kv => 0 <= histogram (snd kv)) d'.
Proof.
  revert d'. induction d as [|[k e] rest IH]; simpl; intros d' F H; [discriminate|].
  inversion F as [|? ? Fe Fr]; subst. simpl in Fe.
  destruct (p =? k).
  - inversion H; subst. constructor; [simpl; lia | exact Fr].
  - destruct (PyDict.update p bump rest) as [r|err]; simpl in H; [|discriminate].
    inversion H; subst. constructor; [exact Fe | now apply IH].
Qed.

Lemma field_pixels_nonneg (m : measurement) (tl : tile) (f : field) (s s' : state) :
  Forall (fun kv => 0 <= histogram (snd kv)) (field_phase_map s) ->
  field_pixels m tl f s = Ok s' ->
  Forall (fun kv => 0 <= histogram (snd kv)) (field_phase_map s').
Proof.
  intros F H. unfold field_pixels in H.
  pose (P := fun t : state =>
               Forall (fun kv => 0 <= histogram (snd kv)) (field_phase_map t)).
  refine (for_each_invariant P _ _ _ _ _ F H).
  intros y t t' Ft. apply (for_each_invariant P); [|exact Ft].
  intros x u u' Fu Hv. unfold P in *.
  destruct (visit_pixel_inv _ _ _ _ _ _ Hv) as (p & mk & _ & _ & Hs).
  destruct (classified p mk) eqn:Hc.
  - destruct (pixel_step_classified f x y p mk u u' Hc Hs)
      as (? & ? & ? & _ & _ & _ & _ & _ & Hfpm & _).
    eapply update_bump_nonneg; eauto.
  - rewrite (pixel_step_unclassified f x y p mk u Hc) in Hs. now inversion Hs; subst.
Qed.

Lemma fold_set_In {V : Type} (l : list (Z * V)) :
  forall (d : PyDict.t V) (kv : Z * V),
  In kv (fold_left (fun d kv => PyDict.set (fst kv) (snd kv) d) l d) ->
  In kv d \/ In kv l.
Proof.
  induction l as [|[k v] rest IH]; intros d kv H; simpl in H; [now left|].
  destruct (IH _ _ H) as [Hin | Hin]; [|right; now right].
  apply In_set in Hin. destruct Hin as [-> | Hin]; [right; now left | now left].
Qed.

Lemma deepcopy_Forall {V : Type} (P : Z * V -> Prop) (d : PyDict.t V) :
  Forall P d -> Forall P (PyDict.deepcopy d).
Proof.
  intros F. rewrite Forall_forall in *. intros kv Hin.
  unfold PyDict.deepcopy, PyDict.of_list in Hin.
  apply fold_set_In in Hin. destruct Hin as [[] | Hin].
  apply F. eapply Permutation_in; [apply items_perm | exact Hin].
Qed.

Lemma field_rows_ok (d : PyDict.t phase_entry) :
  NoDup (PyDict.keys d) ->
  Forall (fun kv => 0 <= histogram (snd kv)) d ->
  let rows := sorted_by_histogram (PyDict.filter_values nonzero d) in
  NoDup (map fst rows) /\
  Forall (fun kv => 1 <= histogram (snd kv)) rows /\
  StronglySorted (fun a b => histogram (snd b) <= histogram (snd a)) rows.
Proof.
  intros Hnd Hpos rows.
  pose proof (legend_phases_perm d Hnd) as Hperm. fold rows in Hperm.
  unfold legend_phases in Hperm.
  split; [|split].
  - change (map fst rows) with (PyDict.keys rows).
    eapply NoDup_keys_perm; [exact Hperm | now apply NoDup_keys_filter].
  - apply (Forall_perm _ _ _ (Permutation_sym Hperm)).
    rewrite Forall_forall in *. intros kv Hin. apply filter_In in Hin.
    destruct Hin as [Hin Hnz]. specialize (Hpos kv Hin).
    unfold nonzero in Hnz. apply negb_true_iff, Z.eqb_neq in Hnz. lia.
  - apply (stable_sort_descending (fun kv : Z * phase_entry => histogram (snd kv))).
Qed.

Lemma field_step_rows (m : measurement) (tiles : string -> tile)
    (epm : PyDict.t phase_entry) (fields : list field) (f : field) (s s' : state) :
  NoDup (PyDict.keys epm) ->
  Forall (fun kv => histogram (snd kv) = 0) epm ->
  In f fields ->
  field_step m tiles epm f s = Ok s' ->
  Forall (rows_ok fields) (occurrences s) ->
  Forall (rows_ok fields) (occurrences s').
Proof.
  intros Hnd Hz Hf H Hocc.
  destruct (field_step_inv _ _ _ _ _ _ H) as (s1 & Hp & Hs').
  pose proof (field_pixels_grows _ _ _ _ _ Hp) as (_ & _ & _ & G4 & _ & G6 & _).
  simpl in G4, G6.
  assert (Hpos : Forall (fun kv => 0 <= histogram (snd kv)) (field_phase_map s1)).
  { refine (field_pixels_nonneg _ _ _ _ _ _ Hp).
    simpl. apply deepcopy_Forall. eapply Forall_impl; [|exact Hz].
    intros kv E. simpl in E. lia. }
  assert (Hk : NoDup (PyDict.keys (field_phase_map s1))).
  { rewrite G6. eapply NoDup_keys_perm; [now apply deepcopy_perm | exact Hnd]. }
  destruct Hs' as [-> | [-> Hne]]; [now rewrite G4|].
  simpl. rewrite G4. apply Forall_app. split; [exact Hocc|].
  constructor; [|constructor].
  destruct (field_rows_ok _ Hk Hpos) as (R1 & R2 & R3).
  unfold rows_ok. simpl. split; [now apply in_map|]. auto.
Qed.

Lemma composite_rows_length (m : measurement) (tiles : string -> tile)
    (epm : PyDict.t phase_entry) (fields : list field) :
  forall s s',
  composite m tiles epm fields s = Ok s' ->
  (List.length (occurrences s') <= List.length (occurrences s) + List.length fields)%nat.
Proof.
  unfold composite. induction fields as [|f rest IH]; intros s s' H; simpl in H.
  - inversion H; subst. lia.
  - destruct (field_step m tiles epm f s) as [t|e] eqn:E; simpl in H; [|discriminate].
    specialize (IH _ _ H).
    destruct (field_step_inv _ _ _ _ _ _ E) as (s1 & Hp & Hs').
    pose proof (field_pixels_grows _ _ _ _ _ Hp) as (_ & _ & _ & G4 & _).
    simpl in G4.
    assert (List.length (occurrences t) <= List.length (occurrences s) + 1)%nat.
    { destruct Hs' as [-> | [-> _]]; simpl; rewrite ?length_app, G4; simpl; lia. }
    simpl. lia.
Qed.

(** X17.  Rows are written out for a field only when it has classified
    pixels: every list of rows handed to the database belongs to a field
    of the run, is not empty, names no phase twice, holds counts of at
    least one and is ordered by count descending; there are at most as
    many lists as fields. *)
Theorem occurrence_rows_well_formed
    (inp : input) (lay : layout) (fields : list field) (st : state) :
  composited inp = Ok (lay, fields, st) ->
  Forall (rows_ok fields) (occurrences st) /\
  (List.length (occurrences st) <= List.length fields)%nat.
Proof.
  intros H. destruct (composited_inv inp lay fields st H) as (d & ps & _ & _ & _ & _ & Hc).
  destruct (phase_loop_wf (in_getsize inp) (in_phases inp)) as [Hnd Hz].
  set (pm0 := snd (phase_loop (in_getsize inp) (in_phases inp))) in *.
  assert (Hnd' : NoDup (PyDict.keys (PyDict.deepcopy pm0))).
  { eapply NoDup_keys_perm; [now apply deepcopy_perm | exact Hnd]. }
  assert (Hz' : Forall (fun kv => histogram (snd kv) = 0) (PyDict.deepcopy pm0))
    by now apply deepcopy_Forall.
  split.
  - unfold composite in Hc.
    refine (for_each_related
              (fun s0 s1 => Forall (rows_ok fields) (occurrences s0) ->
                            Forall (rows_ok fields) (occurrences s1))
              _ fields _ _ _ _ _ Hc _); auto.
    intros f s s' Hf Hs Ho.
    exact (field_step_rows _ _ _ fields f s s' Hnd' Hz' Hf Hs Ho).
  - apply composite_rows_length in Hc. simpl in Hc. exact Hc.
Qed.

Lemma for_each_fixed {A S : Type} (body : A -> S -> result S) (l : list A) (s : S) :
  (forall a, In a l -> body a s = Ok s) -> for_each l body s = Ok s.
Proof.
  induction l as [|a rest IH]; intros H; simpl; [reflexivity|].
  rewrite (H a (or_introl eq_refl)). simpl. apply IH. intros a' Hin. apply H. now right.
Qed.

(** X18.  A field whose rasters cover the image and in which every
    pixel has a mask of zero or a phase index of zero goes through and
    changes nothing that outlives it: canvas, total, bounding box,
    global histogram and rows stay as they were.  Only the field's own
    histogram is reset. *)
Theorem masked_out_field_is_skipped
    (m : measurement) (tiles : string -> tile) (epm : PyDict.t phase_entry)
    (f : field) (s : state) :
  Forall (fun kv => histogram (snd kv) = 0) epm ->
  (forall x y,
     0 <= x < image_width_px m -> 0 <= y < image_height_px m ->
     exists p mk,
       raster_get (tile_phases (tiles (field_name f))) x y = Ok p /\
       raster_get (tile_mask (tiles (field_name f))) x y = Ok mk /\
       (mk = 0 \/ p = 0)) ->
  field_step m tiles epm f s = Ok (with_field_phase_map s (PyDict.deepcopy epm)).
Proof.
  intros Hz Hpix. unfold field_step.
  set (s0 := with_field_phase_map s (PyDict.deepcopy epm)).
  assert (E : field_pixels m (tiles (field_name f)) f s0 = Ok s0).
  { unfold field_pixels. apply for_each_fixed. intros y Hy.
    apply for_each_fixed. intros x Hx.
    apply In_range in Hy, Hx.
    destruct (Hpix x y Hx Hy) as (p & mk & Hp & Hmk & Hzero).
    unfold visit_pixel. rewrite Hp, Hmk. simpl.
    apply pixel_step_unclassified. now apply classified_false_iff. }
  rewrite E. simpl.
  rewrite rows_empty; [reflexivity|].
  subst s0. simpl. now apply deepcopy_Forall.
Qed.

Lemma masked_out_field_is_skipped_witness :
  field_step sample_measurement (fun _ => masked_out_tile) []
             {| field_name := "f1"; field_x := Some 3; field_y := Some 4 |}
             (initial_state (210, 8) [])
  = Ok (with_field_phase_map (initial_state (210, 8) []) (PyDict.deepcopy [])).
Proof.
  apply masked_out_field_is_skipped; [constructor|].
  intros x y Hx Hy. simpl in Hx, Hy.
  assert (Hx' : x = 0 \/ x = 1) by lia. assert (y = 0) by lia. subst y.
  destruct Hx' as [-> | ->]; eexists; exists 0;
    (split; [|split]); [reflexivity | reflexivity | now left
                       | reflexivity | reflexivity | now left].
Defined.

(** ** The run on sample data, once more *)




Lemma occurrence_rows_well_formed_witness :
  exists lay fields st,
    composited (sample_input [quartz; albite] two_phase_tile) = Ok (lay, fields, st) /\
    Forall (rows_ok fields) (occurrences st) /\
    (List.length (occurrences st) <= List.length fields)%nat.
Proof.
  destruct (composited (sample_input [quartz; albite] two_phase_tile))
    as [[[lay fields] st]|e] eqn:E; [|vm_compute in E; discriminate].
  exists lay, fields, st. split; [reflexivity|].
  exact (occurrence_rows_well_formed _ lay fields st E).
Defined.

(** ** Legend labels and the width of the canvas *)

Lemma names_kept_refl (s : state) : names_kept s s.
Proof. intros k. reflexivity. Qed.

Lemma names_kept_trans (s1 s2 s3 : state) :
  names_kept s1 s2 -> names_kept s2 s3 -> names_kept s1 s3.
Proof. intros A B k. now rewrite B. Qed.

Lemma pixel_step_names (f : field) (x y p mk : Z) (s s' : state) :
  pixel_step f x y p mk s = Ok s' -> names_kept s s'.
Proof.
  intros H. destruct (classified p mk) eqn:Hc.
  - destruct (pixel_step_classified f x y p mk s s' Hc H)
      as (fx & fy & e & _ & _ & _ & _ & Hpm & _).
    intros k. destruct (update_get _ _ _ _ Hpm) as [H1 H2].
    destruct (Z.eq_dec k p) as [-> | N].
    + rewrite H1. destruct (PyDict.get p (phase_map s)); reflexivity.
    + now rewrite (H2 k N).
  - rewrite (pixel_step_unclassified f x y p mk s Hc) in H.
    inversion H; subst. apply names_kept_refl.
Qed.

Lemma composite_names (m : measurement) (tiles : string -> tile)
    (epm : PyDict.t phase_entry) (fields : list field) (s s' : state) :
  composite m tiles epm fields s = Ok s' -> names_kept s s'.
Proof.
  assert (V : forall tl f y x u u', visit_pixel tl f y x u = Ok u' -> names_kept u u').
  { intros tl f y x u u' Hv.
    destruct (visit_pixel_inv _ _ _ _ _ _ Hv) as (p & mk & _ & _ & Hs).
    eapply pixel_step_names; exact Hs. }
  assert (P : forall tl f u u', field_pixels m tl f u = Ok u' -> names_kept u u').
  { intros tl f. unfold field_pixels.
    apply (for_each_related names_kept _ _ names_kept_refl names_kept_trans).
    intros y u u' _.
    apply (for_each_related names_kept _ _ names_kept_refl names_kept_trans).
    intros x v v' _. apply V. }
  unfold composite.
  apply (for_each_related names_kept _ _ names_kept_refl names_kept_trans).
  intros f t t' _ H.
  destruct (field_step_inv _ _ _ _ _ _ H) as (s1 & Hp & Hs').
  apply P in Hp.
  destruct Hs' as [-> | [-> _]]; exact Hp.
Qed.

Lemma legend_loop_rows (getsize : string -> Z) (lay : layout) (count : Z)
    (entries : list (Z * phase_entry)) :
  forall y rows row,
  legend_loop getsize lay count entries y = Ok rows ->
  In row rows ->
  row_name_x row = legend_start_x lay + legend_text_x_offset /\
  exists id e, In (id, e) entries /\ row_id row = id /\ row_name row = mineral_name e.
Proof.
  induction entries as [|[id e] rest IH]; simpl; intros y rows row H Hin.
  - inversion H; subst. destruct Hin.
  - destruct (PyFloat.truediv _ _) as [share|err]; simpl in H; [|discriminate].
    destruct (legend_loop getsize lay count rest _) as [rs|err] eqn:E; simpl in H;
      [|discriminate].
    inversion H; subst rows. destruct Hin as [<- | Hin].
    + simpl. split; [reflexivity|]. exists id, e. auto.
    + destruct (IH _ _ _ E Hin) as (A & id' & e' & B & C).
      split; [exact A|]. exists id', e'. split; [now right | exact C].
Qed.

(** X19.  A legend label ends at most [22 - max_numeric_width] pixels
    right of the canvas: the names are drawn from
    [legend_start_x + legend_text_x_offset], the canvas is
    [percent_right_x] wide, and no name of the legend is wider than
    [largest_name_width].  So no label is cut off once ["<0.01"] is at
    least 22 pixels wide. *)
Theorem legend_labels_fit
    (inp : input) (lay : layout) (fields : list field) (st : state) (out : output) :
  composited inp = Ok (lay, fields, st) ->
  run inp = Ok out ->
  Z.abs (snd (canvas_size lay) + 30) < 2 ^ 53 ->
  forall row,
    In row (out_legend out) ->
    row_name_x row + in_getsize inp (row_name row) + max_numeric_width lay
    <= fst (canvas_size lay) + 22.
Proof.
  intros H Hrun Hb row Hrow.
  destruct (composited_inv inp lay fields st H) as (d & ps & _ & Hlay & _ & _ & Hc).
  set (pm0 := snd (phase_loop (in_getsize inp) (in_phases inp))) in *.
  set (lw := fst (phase_loop (in_getsize inp) (in_phases inp))) in *.
  assert (Hd : snd (canvas_size lay) = d).
  { unfold layout_of in Hlay.
    destruct (PyFloat.ceil_int _) as [l|e]; simpl in Hlay; [|discriminate].
    inversion Hlay; subst; reflexivity. }
  rewrite Hd in Hb.
  unfold layout_of in Hlay. rewrite (ceil_int_of_int _ Hb) in Hlay. simpl in Hlay.
  inversion Hlay; subst lay; clear Hlay. simpl.
  unfold run in Hrun. rewrite H in Hrun. simpl in Hrun. unfold finish in Hrun.
  destruct (legend_loop _ _ _ _ _) as [rows|err] eqn:E; simpl in Hrun; [|discriminate].
  inversion Hrun; subst out; clear Hrun. simpl in Hrow.
  destruct (legend_loop_rows _ _ _ _ _ _ _ E Hrow) as (Hx & id & e & Hin & _ & Hname).
  simpl in Hx. rewrite Hx, Hname.
  pose proof (composited_grows inp _ fields st H) as (_ & _ & _ & Hk & _).
  simpl in Hk. fold pm0 in Hk.
  destruct (phase_loop_wf (in_getsize inp) (in_phases inp)) as [Hnd _]. fold pm0 in Hnd.
  assert (Hnd' : NoDup (PyDict.keys (phase_map st))) by now rewrite Hk.
  apply (Permutation_in _ (legend_phases_perm _ Hnd')) in Hin.
  apply filter_In in Hin. destruct Hin as [Hin _].
  apply (In_get _ _ _ Hnd') in Hin.
  pose proof (composite_names _ _ _ _ _ _ Hc id) as Hn. simpl in Hn. fold pm0 in Hn.
  rewrite Hin in Hn. simpl in Hn.
  destruct (PyDict.get id pm0) as [e0|] eqn:E0; [|discriminate].
  simpl in Hn. assert (Hne : mineral_name e = mineral_name e0) by congruence.
  destruct (catalogue_entry _ _ _ _ E0) as (n & Hnin & Hbg & _ & ->).
  simpl in Hne. rewrite Hne.
  destruct (phase_loop_width_acc (in_getsize inp) (in_phases inp) (0, []))
    as (_ & Hw & _).
  specialize (Hw n Hnin Hbg). change (in_getsize inp (pn_name n) <= lw) in Hw.
  change legend_text_x_offset with 40. change legend_line_height with 32.
  change font_size with 24. lia.
Qed.

Lemma legend_labels_fit_witness :
  78 + mono_getsize "albite" + 70 <= 210 + 22.
Proof.
  destruct (composited (sample_input [quartz; albite] half_masked_tile))
    as [[[lay fields] st]|e] eqn:E; [|vm_compute in E; discriminate].
  assert (Hl : lay = {| max_numeric_width := 70; legend_start_x := 38;
                        percent_right_x := 210; canvas_size := (210, 8) |}).
  { vm_compute in E. inversion E; subst. reflexivity. }
  subst lay.
  refine (legend_labels_fit (sample_input [quartz; albite] half_masked_tile) _ fields st
            {| out_layout := {| max_numeric_width := 70; legend_start_x := 38;
                               percent_right_x := 210; canvas_size := (210, 8) |};
               out_fields := fields; out_png := png st;
               out_classified_pixel_count := classified_pixel_count st;
               out_occurrences := occurrences st;
               out_legend := [ {| row_id := 8; row_y := 0; row_fill := blue;
                                  row_name := "albite"; row_name_x := 78;
                                  row_text := "100.00"; row_text_x := 126 |} ];
               out_thumbnail_bbox := (thumbnail_x_min st, thumbnail_y_min st,
                                      thumbnail_x_max st, thumbnail_y_max st) |}
            E _ _
            {| row_id := 8; row_y := 0; row_fill := blue; row_name := "albite";
               row_name_x := 78; row_text := "100.00"; row_text_x := 126 |}
            (or_introl eq_refl)).
  - unfold run. rewrite E. simpl.
    vm_compute in E. inversion E; subst. reflexivity.
  - reflexivity.
Defined.
